(** * null.Timestamp: a nullable time.Time carried as a Unix integer

    Shallow embedding of [timestamp.go] (package [null]) together with the
    parts of the Go standard library its methods call: [strconv.FormatInt],
    [strconv.ParseInt], [encoding/json.Unmarshal] into an [int64],
    [time.Unix], [Time.Unix] and [Time.Equal].  [Scan], which Timestamp
    takes from the embedded [sql.NullTime], is modelled from the
    specification.

    Conventions
    - a Go [byte] is an [ascii]; a [[]byte] and a [string] are both
      [list ascii] (the conversions [string(b)] and [[]byte(s)] copy the
      bytes and change nothing else);
    - [int64] and [uint64] are [Z] with the wrap-around written out;
    - a method with a pointer receiver takes the receiver and returns the
      receiver after the call together with the returned [error];
    - Go's [error] interface is [option error], [None] being [nil]. *)

From Stdlib Require Import ZArith List String Ascii Bool Lia.
Import ListNotations.
Open Scope Z_scope.

(* ================================================================== *)
(** ** Machine integers, bytes and errors *)

Module Go.

Definition byte := ascii.
Definition bytes := list ascii.

(** The numeric value of a byte. *)
Definition b2z (c : byte) : Z := Z.of_N (N_of_ascii c).
Arguments b2z c%_char.

(** A string literal of the source. *)
Definition lit (s : string) : bytes := list_ascii_of_string s.

(** The double quote and the backslash. *)
Definition quote : byte := "034"%char.
Definition backslash : byte := "092"%char.

(** [lo <= c && c <= hi] on bytes. *)
Definition between (lo c hi : byte) : bool :=
  (b2z lo <=? b2z c) && (b2z c <=? b2z hi).
Arguments between (lo c hi)%_char.

(** [bytes.Equal], and [==] on strings. *)
Fixpoint bytes_eqb (a b : bytes) : bool :=
  match a, b with
  | [], [] => true
  | x :: a', y :: b' => Ascii.eqb x y && bytes_eqb a' b'
  | _, _ => false
  end.

Definition two64 : Z := 2 ^ 64.
Definition maxUint64 : Z := two64 - 1.
Definition minInt64 : Z := - 2 ^ 63.
Definition maxInt64 : Z := 2 ^ 63 - 1.

(** Conversion to [uint64] and to [int64]: the value modulo [2^64]. *)
Definition uint64 (z : Z) : Z := z mod two64.
Definition int64 (z : Z) : Z := (z + 2 ^ 63) mod two64 - 2 ^ 63.

Definition is_int64 (z : Z) : Prop := minInt64 <= z <= maxInt64.
Definition is_uint64 (z : Z) : Prop := 0 <= z <= maxUint64.

(** [strconv.ErrSyntax], [strconv.ErrRange], and the two errors of a bad
    [base] or [bitSize] argument. *)
Inductive NumErr : Type :=
| ErrSyntax
| ErrRange
| ErrBase (base : Z)
| ErrBitSize (bitSize : Z).

(** The error values the package meets.  A [json.SyntaxError] is kept as
    the offending byte (none at the end of the input) and the context,
    from which Go builds its message. *)
Inductive error : Type :=
| NumError (Func : string) (Num : bytes) (Err : NumErr)
| SyntaxError (c : option byte) (context : string) (Offset : Z)
| UnmarshalTypeError (Value : string) (Offset : Z)
| ScanError (msg : string) (srcType dstType : string)
| Errorf_w (prefix : string) (cause : error).

(** [errors.Unwrap]. *)
Definition Unwrap (e : error) : option error :=
  match e with
  | Errorf_w _ cause => Some cause
  | _ => None
  end.

End Go.
Import Go.

(* ================================================================== *)
(** ** Package strconv *)

Module strconv.

Definition digits : bytes := lit "0123456789abcdefghijklmnopqrstuvwxyz".

Definition digitAt (d : Z) : byte := nth (Z.to_nat d) digits "0"%char.

(** The digit loop of [formatBits] for a general base,
    [for u >= b { i--; q := u / b; a[i] = digits[u-q*b]; u = q }
     i--; a[i] = digits[u]],
    writing from the end of a 65 byte buffer; [a] is what is written so
    far.  For base 10 Go emits two digits per round from a table, and for
    [0 <= i < 100] it reads the result from that table: the same bytes. *)
Fixpoint formatLoop (fuel : nat) (u b : Z) (a : bytes) : bytes :=
  match fuel with
  | O => a
  | S f =>
      if u >=? b
      then let q := u / b in formatLoop f q b (digitAt (u - q * b) :: a)
      else digitAt u :: a
  end.

(** [formatBits(nil, u, base, neg, false)]: [u] is negated (as a uint64)
    when [neg], the sign is written last. *)
Definition formatBits (u : Z) (base : Z) (neg : bool) : bytes :=
  let u := if neg then uint64 (- u) else u in
  let a := formatLoop 65 u base [] in
  if neg then "-"%char :: a else a.

(** [FormatInt(i, base)]. *)
Definition FormatInt (i : Z) (base : Z) : bytes :=
  formatBits (uint64 i) base (i <? 0).

(** [lower(c) = c | ('x' - 'X')]. *)
Definition lower (c : Z) : Z := Z.lor c 32.

(** The result of the digit loop of [ParseUint]: the number read and
    whether an underscore was seen, or the value and error returned from
    inside the loop. *)
Fixpoint parseLoop (base0 : bool) (base cutoff maxVal : Z)
         (s : bytes) (n : Z) (underscores : bool)
  : (Z * bool) + (Z * NumErr) :=
  match s with
  | [] => inl (n, underscores)
  | ch :: rest =>
      let c := b2z ch in
      if (c =? 95) && base0
      then parseLoop base0 base cutoff maxVal rest n true
      else
        let d :=
          if (48 <=? c) && (c <=? 57) then Some (c - 48)
          else if (97 <=? lower c) && (lower c <=? 122)
               then Some (lower c - 97 + 10)
               else None in
        match d with
        | None => inr (0, ErrSyntax)
        | Some d =>
            if d >=? base then inr (0, ErrSyntax)
            else if n >=? cutoff then inr (maxVal, ErrRange)
            else
              let n' := uint64 (n * base) in
              let n1 := uint64 (n' + d) in
              if (n1 <? n') || (n1 >? maxVal) then inr (maxVal, ErrRange)
              else parseLoop base0 base cutoff maxVal rest n1 underscores
        end
  end.

(** The last character seen by [underscoreOK]: ['^'] at the beginning,
    ['0'] for a digit or base prefix, ['_'], and ['!'] for anything else. *)
Inductive Saw : Type := SawBegin | SawDigit | SawUnderscore | SawOther.

Fixpoint underscoreLoop (hex : bool) (s : bytes) (saw : Saw) : bool :=
  match s with
  | [] => match saw with SawUnderscore => false | _ => true end
  | ch :: rest =>
      let c := b2z ch in
      if ((48 <=? c) && (c <=? 57))
         || (hex && (97 <=? lower c) && (lower c <=? 102))
      then underscoreLoop hex rest SawDigit
      else if c =? 95
      then match saw with
           | SawDigit => underscoreLoop hex rest SawUnderscore
           | _ => false
           end
      else match saw with
           | SawUnderscore => false
           | _ => underscoreLoop hex rest SawOther
           end
  end.

Definition isPrefixLetter (c : byte) : bool :=
  let l := lower (b2z c) in (l =? 98) || (l =? 111) || (l =? 120).

Definition underscoreOK (s : bytes) : bool :=
  let s := match s with
           | c :: r => if Ascii.eqb c "-" || Ascii.eqb c "+" then r else s
           | [] => s
           end in
  match s with
  | c0 :: c1 :: r =>
      if Ascii.eqb c0 "0" && isPrefixLetter c1
      then underscoreLoop (lower (b2z c1) =? 120) r SawDigit
      else underscoreLoop false s SawBegin
  | _ => underscoreLoop false s SawBegin
  end.

Definition IntSize : Z := 64.

(** [ParseUint(s, base, bitSize)].  Errors name the argument as it was
    passed in (Go's [s0]), and the underscore check reads it too. *)
Definition ParseUint (s : bytes) (base bitSize : Z) : Z * option error :=
  let fn := "ParseUint"%string in
  match s with
  | [] => (0, Some (NumError fn s ErrSyntax))
  | c0 :: tl =>
      let base0 := base =? 0 in
      let pre : option (Z * bytes) :=
        if (2 <=? base) && (base <=? 36) then Some (base, s)
        else if base0 then
          if Ascii.eqb c0 "0" then
            match tl with
            | c1 :: c2 :: r =>
                let l := lower (b2z c1) in
                if l =? 98 then Some (2, c2 :: r)
                else if l =? 111 then Some (8, c2 :: r)
                else if l =? 120 then Some (16, c2 :: r)
                else Some (8, tl)
            | _ => Some (8, tl)
            end
          else Some (10, s)
        else None in
      match pre with
      | None => (0, Some (NumError fn s (ErrBase base)))
      | Some (b, digs) =>
          let bitSize' := if bitSize =? 0 then IntSize else bitSize in
          if negb (bitSize =? 0) && ((bitSize <? 0) || (bitSize >? 64))
          then (0, Some (NumError fn s (ErrBitSize bitSize)))
          else
            let cutoff := maxUint64 / b + 1 in
            let maxVal := uint64 (Z.shiftl 1 bitSize' - 1) in
            match parseLoop base0 b cutoff maxVal digs 0 false with
            | inr (v, e) => (v, Some (NumError fn s e))
            | inl (n, underscores) =>
                if underscores && negb (underscoreOK s)
                then (0, Some (NumError fn s ErrSyntax))
                else (n, None)
            end
      end
  end.

Definition isErrRange (e : error) : bool :=
  match e with
  | NumError _ _ ErrRange => true
  | _ => false
  end.

Definition renamed (fn : string) (s0 : bytes) (e : error) : error :=
  match e with
  | NumError _ _ k => NumError fn s0 k
  | _ => e
  end.

(** The tail of [ParseInt]: the range check on the unsigned value and the
    conversion to [int64]. *)
Definition signed (fn : string) (s0 : bytes) (un : Z) (neg : bool)
           (bitSize : Z) : Z * option error :=
  let bitSize := if bitSize =? 0 then IntSize else bitSize in
  let cutoff := uint64 (Z.shiftl 1 (bitSize - 1)) in
  if negb neg && (un >=? cutoff)
  then (int64 (cutoff - 1), Some (NumError fn s0 ErrRange))
  else if neg && (un >? cutoff)
  then (int64 (- int64 cutoff), Some (NumError fn s0 ErrRange))
  else
    let n := int64 un in
    (if neg then int64 (- n) else n, None).

(** [ParseInt(s, base, bitSize)]: the sign is picked off, the rest goes
    to [ParseUint]; an error other than [ErrRange] is returned at once
    under [ParseInt]'s name. *)
Definition ParseInt (s0 : bytes) (base bitSize : Z) : Z * option error :=
  let fn := "ParseInt"%string in
  match s0 with
  | [] => (0, Some (NumError fn s0 ErrSyntax))
  | c0 :: tl =>
      let '(s, neg) :=
        if Ascii.eqb c0 "+" then (tl, false)
        else if Ascii.eqb c0 "-" then (tl, true)
        else (s0, false) in
      let '(un, err) := ParseUint s base bitSize in
      match err with
      | Some e =>
          if negb (isErrRange e) then (0, Some (renamed fn s0 e))
          else signed fn s0 un neg bitSize
      | None => signed fn s0 un neg bitSize
      end
  end.

End strconv.

(* ================================================================== *)
(** ** Package encoding/json: the scanner, and Unmarshal into an int64 *)

Module json.

(** The scanner's step functions, by name. *)
Inductive Step : Type :=
| stateBeginValueOrEmpty | stateBeginValue
| stateBeginStringOrEmpty | stateBeginString
| stateEndValue | stateEndTop
| stateInString | stateInStringEsc
| stateInStringEscU | stateInStringEscU1
| stateInStringEscU12 | stateInStringEscU123
| stateNeg | state1 | state0 | stateDot | stateDot0
| stateE | stateESign | stateE0
| stateT | stateTr | stateTru
| stateF | stateFa | stateFal | stateFals
| stateN | stateNu | stateNul
| stateError.

Inductive Op : Type :=
| scanContinue | scanBeginLiteral | scanBeginObject | scanObjectKey
| scanObjectValue | scanEndObject | scanBeginArray | scanArrayValue
| scanEndArray | scanSkipSpace | scanEnd | scanError.

Inductive ParseState : Type :=
| parseObjectKey | parseObjectValue | parseArrayValue.

Definition maxNestingDepth : Z := 10000.

(** The scanner.  [parseState] is the stack of what is being parsed, its
    head the innermost (Go appends at the end of a slice); [nbytes] is
    the count of bytes consumed, Go's [bytes] field. *)
Record scanner : Type := mkScanner {
  step : Step;
  endTop : bool;
  parseState : list ParseState;
  err : option error;
  nbytes : Z
}.

Definition setStep (s : scanner) (f : Step) : scanner :=
  mkScanner f (endTop s) (parseState s) (err s) (nbytes s).

Definition reset (s : scanner) : scanner :=
  mkScanner stateBeginValue false [] None (nbytes s).

Definition isSpace (c : byte) : bool :=
  (b2z c <=? 32)
  && (Ascii.eqb c " " || (b2z c =? 9) || (b2z c =? 13) || (b2z c =? 10)).

(** [s.error(c, context)]. *)
Definition error_ (s : scanner) (c : byte) (context : string)
  : scanner * Op :=
  (mkScanner stateError (endTop s) (parseState s)
             (Some (SyntaxError (Some c) context (nbytes s))) (nbytes s),
   scanError).

Definition pushParseState (s : scanner) (c : byte) (newParseState : ParseState)
           (successState : Op) : scanner * Op :=
  let s := mkScanner (step s) (endTop s) (newParseState :: parseState s)
                     (err s) (nbytes s) in
  if Z.of_nat (List.length (parseState s)) <=? maxNestingDepth
  then (s, successState)
  else error_ s c "exceeded max depth".

Definition popParseState (s : scanner) : scanner :=
  let ps := tl (parseState s) in
  match ps with
  | [] => mkScanner stateEndTop true ps (err s) (nbytes s)
  | _ => mkScanner stateEndValue (endTop s) ps (err s) (nbytes s)
  end.

(** [s.parseState[n-1] = p]; the stack is never empty where the scanner
    does this. *)
Definition setTop (s : scanner) (p : ParseState) : scanner :=
  match parseState s with
  | [] => s
  | _ :: r => mkScanner (step s) (endTop s) (p :: r) (err s) (nbytes s)
  end.

Definition f_stateEndTop (s : scanner) (c : byte) : scanner * Op :=
  if negb (isSpace c)
  then (fst (error_ s c "after top-level value"), scanEnd)
  else (s, scanEnd).

Definition f_stateEndValue (s : scanner) (c : byte) : scanner * Op :=
  match parseState s with
  | [] =>
      f_stateEndTop
        (mkScanner stateEndTop true (parseState s) (err s) (nbytes s)) c
  | ps :: _ =>
      if isSpace c then (setStep s stateEndValue, scanSkipSpace)
      else
        match ps with
        | parseObjectKey =>
            if Ascii.eqb c ":"
            then (setStep (setTop s parseObjectValue) stateBeginValue,
                  scanObjectKey)
            else error_ s c "after object key"
        | parseObjectValue =>
            if Ascii.eqb c ","
            then (setStep (setTop s parseObjectKey) stateBeginString,
                  scanObjectValue)
            else if Ascii.eqb c "}"
            then (popParseState s, scanEndObject)
            else error_ s c "after object key:value pair"
        | parseArrayValue =>
            if Ascii.eqb c ","
            then (setStep s stateBeginValue, scanArrayValue)
            else if Ascii.eqb c "]"
            then (popParseState s, scanEndArray)
            else error_ s c "after array element"
        end
  end.

Definition f_stateBeginValue (s : scanner) (c : byte) : scanner * Op :=
  if isSpace c then (s, scanSkipSpace)
  else if Ascii.eqb c "{"
  then pushParseState (setStep s stateBeginStringOrEmpty) c
                      parseObjectKey scanBeginObject
  else if Ascii.eqb c "["
  then pushParseState (setStep s stateBeginValueOrEmpty) c
                      parseArrayValue scanBeginArray
  else if Ascii.eqb c quote then (setStep s stateInString, scanBeginLiteral)
  else if Ascii.eqb c "-" then (setStep s stateNeg, scanBeginLiteral)
  else if Ascii.eqb c "0" then (setStep s state0, scanBeginLiteral)
  else if Ascii.eqb c "t" then (setStep s stateT, scanBeginLiteral)
  else if Ascii.eqb c "f" then (setStep s stateF, scanBeginLiteral)
  else if Ascii.eqb c "n" then (setStep s stateN, scanBeginLiteral)
  else if between "1" c "9" then (setStep s state1, scanBeginLiteral)
  else error_ s c "looking for beginning of value".

Definition f_stateBeginValueOrEmpty (s : scanner) (c : byte) : scanner * Op :=
  if isSpace c then (s, scanSkipSpace)
  else if Ascii.eqb c "]" then f_stateEndValue s c
  else f_stateBeginValue s c.

Definition f_stateBeginString (s : scanner) (c : byte) : scanner * Op :=
  if isSpace c then (s, scanSkipSpace)
  else if Ascii.eqb c quote then (setStep s stateInString, scanBeginLiteral)
  else error_ s c "looking for beginning of object key string".

Definition f_stateBeginStringOrEmpty (s : scanner) (c : byte)
  : scanner * Op :=
  if isSpace c then (s, scanSkipSpace)
  else if Ascii.eqb c "}"
  then f_stateEndValue (setTop s parseObjectValue) c
  else f_stateBeginString s c.

Definition f_stateInString (s : scanner) (c : byte) : scanner * Op :=
  if Ascii.eqb c quote then (setStep s stateEndValue, scanContinue)
  else if Ascii.eqb c backslash then (setStep s stateInStringEsc, scanContinue)
  else if b2z c <? 32 then error_ s c "in string literal"
  else (s, scanContinue).

Definition f_stateInStringEsc (s : scanner) (c : byte) : scanner * Op :=
  if Ascii.eqb c "b" || Ascii.eqb c "f" || Ascii.eqb c "n"
     || Ascii.eqb c "r" || Ascii.eqb c "t" || Ascii.eqb c backslash
     || Ascii.eqb c "/" || Ascii.eqb c quote
  then (setStep s stateInString, scanContinue)
  else if Ascii.eqb c "u" then (setStep s stateInStringEscU, scanContinue)
  else error_ s c "in string escape code".

Definition isHex (c : byte) : bool :=
  between "0" c "9" || between "a" c "f" || between "A" c "F".

(** The four states of a [\uXXXX] escape, which differ in the next step. *)
Definition f_stateInStringEscHex (next : Step) (s : scanner) (c : byte)
  : scanner * Op :=
  if isHex c then (setStep s next, scanContinue)
  else error_ s c "in \u hexadecimal character escape".

Definition f_state0 (s : scanner) (c : byte) : scanner * Op :=
  if Ascii.eqb c "." then (setStep s stateDot, scanContinue)
  else if Ascii.eqb c "e" || Ascii.eqb c "E"
  then (setStep s stateE, scanContinue)
  else f_stateEndValue s c.

Definition f_state1 (s : scanner) (c : byte) : scanner * Op :=
  if between "0" c "9" then (setStep s state1, scanContinue)
  else f_state0 s c.

Definition f_stateNeg (s : scanner) (c : byte) : scanner * Op :=
  if Ascii.eqb c "0" then (setStep s state0, scanContinue)
  else if between "1" c "9" then (setStep s state1, scanContinue)
  else error_ s c "in numeric literal".

Definition f_stateDot (s : scanner) (c : byte) : scanner * Op :=
  if between "0" c "9" then (setStep s stateDot0, scanContinue)
  else error_ s c "after decimal point in numeric literal".

Definition f_stateDot0 (s : scanner) (c : byte) : scanner * Op :=
  if between "0" c "9" then (s, scanContinue)
  else if Ascii.eqb c "e" || Ascii.eqb c "E"
  then (setStep s stateE, scanContinue)
  else f_stateEndValue s c.

Definition f_stateESign (s : scanner) (c : byte) : scanner * Op :=
  if between "0" c "9" then (setStep s stateE0, scanContinue)
  else error_ s c "in exponent of numeric literal".

Definition f_stateE (s : scanner) (c : byte) : scanner * Op :=
  if Ascii.eqb c "+" || Ascii.eqb c "-"
  then (setStep s stateESign, scanContinue)
  else f_stateESign s c.

Definition f_stateE0 (s : scanner) (c : byte) : scanner * Op :=
  if between "0" c "9" then (s, scanContinue)
  else f_stateEndValue s c.

(** One letter of [true], [false] or [null]: [want] is expected, [next]
    is the step after it, [context] the complaint otherwise. *)
Definition f_letter (want : byte) (next : Step) (context : string)
           (s : scanner) (c : byte) : scanner * Op :=
  if Ascii.eqb c want then (setStep s next, scanContinue)
  else error_ s c context.
Arguments f_letter want%_char next context%_string s c.

(** [s.step(s, c)]. *)
Definition doStep (s : scanner) (c : byte) : scanner * Op :=
  match step s with
  | stateBeginValueOrEmpty => f_stateBeginValueOrEmpty s c
  | stateBeginValue => f_stateBeginValue s c
  | stateBeginStringOrEmpty => f_stateBeginStringOrEmpty s c
  | stateBeginString => f_stateBeginString s c
  | stateEndValue => f_stateEndValue s c
  | stateEndTop => f_stateEndTop s c
  | stateInString => f_stateInString s c
  | stateInStringEsc => f_stateInStringEsc s c
  | stateInStringEscU => f_stateInStringEscHex stateInStringEscU1 s c
  | stateInStringEscU1 => f_stateInStringEscHex stateInStringEscU12 s c
  | stateInStringEscU12 => f_stateInStringEscHex stateInStringEscU123 s c
  | stateInStringEscU123 => f_stateInStringEscHex stateInString s c
  | stateNeg => f_stateNeg s c
  | state1 => f_state1 s c
  | state0 => f_state0 s c
  | stateDot => f_stateDot s c
  | stateDot0 => f_stateDot0 s c
  | stateE => f_stateE s c
  | stateESign => f_stateESign s c
  | stateE0 => f_stateE0 s c
  | stateT => f_letter "r" stateTr "in literal true (expecting 'r')" s c
  | stateTr => f_letter "u" stateTru "in literal true (expecting 'u')" s c
  | stateTru => f_letter "e" stateEndValue "in literal true (expecting 'e')" s c
  | stateF => f_letter "a" stateFa "in literal false (expecting 'a')" s c
  | stateFa => f_letter "l" stateFal "in literal false (expecting 'l')" s c
  | stateFal => f_letter "s" stateFals "in literal false (expecting 's')" s c
  | stateFals => f_letter "e" stateEndValue "in literal false (expecting 'e')" s c
  | stateN => f_letter "u" stateNu "in literal null (expecting 'u')" s c
  | stateNu => f_letter "l" stateNul "in literal null (expecting 'l')" s c
  | stateNul => f_letter "l" stateEndValue "in literal null (expecting 'l')" s c
  | stateError => (s, scanError)
  end.

(** [s.eof()]. *)
Definition eof (s : scanner) : scanner * Op :=
  match err s with
  | Some _ => (s, scanError)
  | None =>
      if endTop s then (s, scanEnd)
      else
        let s := fst (doStep s " "%char) in
        if endTop s then (s, scanEnd)
        else
          match err s with
          | Some _ => (s, scanError)
          | None =>
              (mkScanner (step s) (endTop s) (parseState s)
                 (Some (SyntaxError None "unexpected end of JSON input"
                                    (nbytes s)))
                 (nbytes s),
               scanError)
          end
  end.

Definition isScanError (o : Op) : bool :=
  match o with scanError => true | _ => false end.

(** The loop of [checkValid]. *)
Fixpoint checkLoop (data : bytes) (s : scanner) : scanner * option error :=
  match data with
  | [] => let '(s, op) := eof s in
          if isScanError op then (s, err s) else (s, None)
  | c :: rest =>
      let s := mkScanner (step s) (endTop s) (parseState s) (err s)
                         (nbytes s + 1) in
      let '(s, op) := doStep s c in
      if isScanError op then (s, err s) else checkLoop rest s
  end.

(** [checkValid(data, scan)]: the syntax error of [data], if any. *)
Definition checkValid (data : bytes) : option error :=
  snd (checkLoop data (mkScanner stateBeginValue false [] None 0)).

(** [d.scanWhile(scanSkipSpace)] at the start of the input: the number
    of leading space bytes. *)
Fixpoint leadingSpaces (data : bytes) : nat :=
  match data with
  | c :: rest => if isSpace c then S (leadingSpaces rest) else O
  | [] => O
  end.

(** The scan of a string literal in [rescanLiteral]: the number of bytes
    after the opening quote that belong to it, the closing quote
    included; a backslash takes the next byte with it. *)
Fixpoint rescanString (rest : bytes) : nat :=
  match rest with
  | [] => O
  | c :: r =>
      if Ascii.eqb c backslash then
        match r with
        | [] => 1%nat
        | _ :: r' => S (S (rescanString r'))
        end
      else if Ascii.eqb c quote then 1%nat
      else S (rescanString r)
  end.

Definition isNumberByte (c : byte) : bool :=
  between "0" c "9" || Ascii.eqb c "." || Ascii.eqb c "e"
  || Ascii.eqb c "E" || Ascii.eqb c "+" || Ascii.eqb c "-".

Fixpoint rescanNumber (rest : bytes) : nat :=
  match rest with
  | c :: r => if isNumberByte c then S (rescanNumber r) else O
  | [] => O
  end.

(** [d.rescanLiteral()]: the number of bytes of the literal after its
    first byte [c]. *)
Definition rescanLiteral (c : byte) (rest : bytes) : nat :=
  if Ascii.eqb c quote then rescanString rest
  else if between "0" c "9" || Ascii.eqb c "-" then rescanNumber rest
  else if Ascii.eqb c "t" then 3%nat
  else if Ascii.eqb c "f" then 4%nat
  else if Ascii.eqb c "n" then 3%nat
  else O.

(** [d.literalStore(item, v, false)] for [v] of kind [int64], holding
    [v0]: the value stored and the error saved.  [null] stores nothing
    into an integer and is no error; a boolean or a string is an
    [UnmarshalTypeError]; a number is read by
    [strconv.ParseInt(s, 10, 64)], and a failure there is an
    [UnmarshalTypeError] too ([v.OverflowInt(n)] is never true of an
    int64). *)
Definition literalStore (item : bytes) (readIndex : Z) (v0 : Z)
  : Z * option error :=
  match item with
  | [] => (v0, None)
  | c :: _ =>
      if Ascii.eqb c "n" then (v0, None)
      else if Ascii.eqb c "t" || Ascii.eqb c "f"
      then (v0, Some (UnmarshalTypeError "bool" readIndex))
      else if Ascii.eqb c quote
      then (v0, Some (UnmarshalTypeError "string" readIndex))
      else
        match strconv.ParseInt item 10 64 with
        | (n, None) => (n, None)
        | (_, Some _) =>
            (v0, Some (UnmarshalTypeError
                         (String.append "number " (string_of_list_ascii item)) readIndex))
        end
  end.

(** [json.Unmarshal(data, &v)] for [v] an [int64] holding [v0]: the value
    of [v] afterwards and the error.  The input is checked as a whole
    first; then the top-level value is decoded: an array or an object
    saves an [UnmarshalTypeError] and is skipped, a literal goes to
    [literalStore].  After a successful [checkValid] there is a value, so
    the last case below, input of spaces only, is not reached. *)
Definition Unmarshal_int64 (data : bytes) (v0 : Z) : Z * option error :=
  match checkValid data with
  | Some e => (v0, Some e)
  | None =>
      let k := leadingSpaces data in
      match skipn k data with
      | c :: rest =>
          let off := Z.of_nat k + 1 in
          if Ascii.eqb c "["
          then (v0, Some (UnmarshalTypeError "array" off))
          else if Ascii.eqb c "{"
          then (v0, Some (UnmarshalTypeError "object" off))
          else
            let n := rescanLiteral c rest in
            literalStore (c :: firstn n rest) (Z.of_nat k + 1 + Z.of_nat n) v0
      | [] =>
          (v0, Some (SyntaxError None "unexpected end of JSON input"
                                 (Z.of_nat (List.length data))))
      end
  end.

End json.

(* ================================================================== *)
(** ** Package time: instants *)

Module time.

(** A [*Location]: [nil] (which means UTC) or the address of a Location.
    Two Times are [==] only when their pointers are the same. *)
Definition Location : Type := option positive.

(** [time.Local], the address of the package's [localLoc]. *)
Definition Local : Location := Some 1%positive.

(** [time.Time]: [wall] is a uint64, [ext] an int64. *)
Record Time : Type := mkTime {
  wall : Z;
  ext : Z;
  loc : Location
}.

Definition wf (t : Time) : Prop := is_uint64 (wall t) /\ is_int64 (ext t).

(** [time.Time{}]. *)
Definition zero : Time := mkTime 0 0 None.

Definition secondsPerDay : Z := 86400.
Definition unixToInternal : Z :=
  (1969 * 365 + 1969 / 4 - 1969 / 100 + 1969 / 400) * secondsPerDay.
Definition internalToUnix : Z := - unixToInternal.
Definition wallToInternal : Z :=
  (1884 * 365 + 1884 / 4 - 1884 / 100 + 1884 / 400) * secondsPerDay.

Definition hasMonotonic : Z := Z.shiftl 1 63.
Definition nsecMask : Z := Z.shiftl 1 30 - 1.
Definition nsecShift : Z := 30.

(** [t.nsec()]. *)
Definition nsec (t : Time) : Z := Z.land (wall t) nsecMask.

(** [t.sec()]: seconds since Jan 1 year 1. *)
Definition sec (t : Time) : Z :=
  if negb (Z.land (wall t) hasMonotonic =? 0)
  then int64 (wallToInternal
              + int64 (Z.shiftr (uint64 (Z.shiftl (wall t) 1))
                                (nsecShift + 1)))
  else ext t.

(** [t.unixSec()] and [t.Unix()]. *)
Definition unixSec (t : Time) : Z := int64 (sec t + internalToUnix).
Definition Time_Unix (t : Time) : Z := unixSec t.

Definition unixTime (sec nsec : Z) : Time :=
  mkTime (uint64 nsec) (int64 (sec + unixToInternal)) Local.

(** [time.Unix(sec, nsec)]; Go's [/] truncates towards zero. *)
Definition Unix (sec nsec : Z) : Time :=
  if (nsec <? 0) || (nsec >=? 1000000000) then
    let n := Z.quot nsec 1000000000 in
    let sec := int64 (sec + n) in
    let nsec := int64 (nsec - int64 (n * 1000000000)) in
    if nsec <? 0
    then unixTime (int64 (sec - 1)) (int64 (nsec + 1000000000))
    else unixTime sec nsec
  else unixTime sec nsec.

(** [t.Equal(u)]: the same instant, whatever the locations. *)
Definition Time_Equal (t u : Time) : bool :=
  if negb (Z.land (Z.land (wall t) (wall u)) hasMonotonic =? 0)
  then ext t =? ext u
  else (sec t =? sec u) && (nsec t =? nsec u).

Definition Location_eqb (a b : Location) : bool :=
  match a, b with
  | None, None => true
  | Some p, Some q => Pos.eqb p q
  | _, _ => false
  end.

(** [t == u] on the struct: field by field, pointer included. *)
Definition Time_eqb (t u : Time) : bool :=
  (wall t =? wall u) && (ext t =? ext u) && Location_eqb (loc t) (loc u).

(** The Locations allocated by the program, read through their address:
    [zs p u] is the offset east of UTC, in seconds, that the Location at
    [p] gives the Unix time [u]. *)
Definition Zones : Type := positive -> Z -> Z.

(** The offset of [t.Zone()]: a [nil] location is UTC. *)
Definition Zone_offset (zs : Zones) (t : Time) : Z :=
  match loc t with
  | None => 0
  | Some p => zs p (unixSec t)
  end.

End time.

(* ================================================================== *)
(** ** Package database/sql: NullTime *)

Module sql.

(** A [driver.Value], or any value handed to [Scan]: [nil], [int64],
    [float64] (its bits), [bool], [[]byte], [string], [time.Time]. *)
Inductive Value : Type :=
| VNil
| VInt64 (i : Z)
| VFloat64 (bits : Z)
| VBool (b : bool)
| VBytes (b : bytes)
| VString (s : bytes)
| VTime (t : time.Time).

(** [%T] of a value. *)
Definition typeName (v : Value) : string :=
  match v with
  | VNil => "<nil>"
  | VInt64 _ => "int64"
  | VFloat64 _ => "float64"
  | VBool _ => "bool"
  | VBytes _ => "[]uint8"
  | VString _ => "string"
  | VTime _ => "time.Time"
  end.

Record NullTime : Type := mkNullTime {
  Time : time.Time;
  Valid : bool
}.

(** Modelled from the spec: the conversion inside [Scan], which is the
    library's and has no source in the package.  A native time value is
    copied; any other input kind fails with TypeMismatch (unsupported type
    for Timestamp).  The spec leaves the instant undefined after a failure;
    the destination is kept here, and no statement below reads it. *)
Definition convertAssign (dest : time.Time) (src : Value)
  : time.Time * option error :=
  match src with
  | VTime s => (s, None)
  | _ => (dest,
          Some (ScanError "unsupported type for Timestamp"
                          (typeName src) "*time.Time"))
  end.

(** Modelled from the spec: [Scan], the method of [sql.NullTime] that
    Timestamp promotes by embedding; its body is the library's and has no
    source in the package.  Scan accepts null (sets invalid, zero instant)
    and a native time value (sets valid, copies it); any other input kind
    fails with TypeMismatch, and the Timestamp remains or becomes invalid:
    [Valid] is whether the conversion succeeded. *)
Definition Scan (n : NullTime) (value : Value) : NullTime * option error :=
  match value with
  | VNil => (mkNullTime time.zero false, None)
  | _ =>
      let '(t, e) := convertAssign (Time n) value in
      (mkNullTime t (match e with None => true | Some _ => false end), e)
  end.

End sql.

(* ================================================================== *)
(** ** Package null: Timestamp *)

Module null.

(** [type Timestamp struct { sql.NullTime }]. *)
Record Timestamp : Type := mkTimestamp {
  NullTime : sql.NullTime
}.

(** The promoted fields [t.Time] and [t.Valid], and assignment to them. *)
Definition Time (t : Timestamp) : time.Time := sql.Time (NullTime t).
Definition Valid (t : Timestamp) : bool := sql.Valid (NullTime t).
Definition setTime (t : Timestamp) (v : time.Time) : Timestamp :=
  mkTimestamp (sql.mkNullTime v (Valid t)).
Definition setValid (t : Timestamp) (b : bool) : Timestamp :=
  mkTimestamp (sql.mkNullTime (Time t) b).

(** The promoted method [t.Scan]. *)
Definition Scan (t : Timestamp) (value : sql.Value)
  : Timestamp * option error :=
  let '(n, e) := sql.Scan (NullTime t) value in (mkTimestamp n, e).

(** Modelled from the spec: the package variable [nullBytes], declared in
    another file of the package, is the literal [null] ("if input is
    exactly the literal null"). *)
Definition nullBytes : bytes := lit "null".

Definition Value (t : Timestamp) : sql.Value * option error :=
  if negb (Valid t) then (sql.VNil, None)
  else (sql.VTime (Time t), None).

Definition NewTimestamp (t : time.Time) (valid : bool) : Timestamp :=
  mkTimestamp (sql.mkNullTime t valid).

Definition TimestampFrom (t : time.Time) : Timestamp :=
  NewTimestamp t true.

(** [TimestampFromPtr(t)].  A [*time.Time] is represented by what it
    points to, [None] being the nil pointer: the function reads [*t] and
    keeps no reference to it. *)
Definition TimestampFromPtr (t : option time.Time) : Timestamp :=
  match t with
  | None => NewTimestamp time.zero false
  | Some v => NewTimestamp v true
  end.

Definition ValueOrZero (t : Timestamp) : time.Time :=
  if negb (Valid t) then time.zero else Time t.

Definition MarshalJSON (t : Timestamp) : bytes * option error :=
  if negb (Valid t) then (lit "null", None)
  else (strconv.FormatInt (time.Time_Unix (Time t)) 10, None).

Definition UnmarshalJSON (t : Timestamp) (data : bytes)
  : Timestamp * option error :=
  if bytes_eqb data nullBytes then (setValid t false, None)
  else
    match json.Unmarshal_int64 data 0 with
    | (_, Some err) =>
        (t, Some (Errorf_w "null: couldn't unmarshal JSON" err))
    | (v, None) =>
        let t := setTime t (time.Unix v 0) in
        let t := setValid t true in
        (t, None)
    end.

Definition MarshalText (t : Timestamp) : bytes * option error :=
  if negb (Valid t) then ([], None)
  else (strconv.FormatInt (time.Time_Unix (Time t)) 10, None).

Definition UnmarshalText (t : Timestamp) (text : bytes)
  : Timestamp * option error :=
  let str := text in
  if bytes_eqb str (lit "") || bytes_eqb str (lit "null")
  then (setValid t false, None)
  else
    match strconv.ParseInt str 0 64 with
    | (_, Some err) =>
        (t, Some (Errorf_w "null: couldn't unmarshal text" err))
    | (v, None) =>
        let t := setTime t (time.Unix v 0) in
        let t := setValid t true in
        (t, None)
    end.

Definition SetValid (t : Timestamp) (v : time.Time) : Timestamp :=
  let t := setTime t v in
  setValid t true.

(** [t.Ptr()].  The pointer returned is represented by what it points to,
    [None] being the nil pointer.  [Ptr] has a value receiver and returns
    the address of the [Time] field of its own copy of the Timestamp, a
    fresh address at every call.  Addresses are not represented: an
    equation between two results of [Ptr] says that both are nil or that
    they point to equal instants, never that they are the same pointer. *)
Definition Ptr (t : Timestamp) : option time.Time :=
  if negb (Valid t) then None else Some (Time t).

Definition IsZero (t : Timestamp) : bool := negb (Valid t).

Definition Equal (t other : Timestamp) : bool :=
  Bool.eqb (Valid t) (Valid other)
  && (negb (Valid t) || time.Time_Equal (Time t) (Time other)).

Definition ExactEqual (t other : Timestamp) : bool :=
  Bool.eqb (Valid t) (Valid other)
  && (negb (Valid t) || time.Time_eqb (Time t) (Time other)).

End null.
Import null.

(* ================================================================== *)
(** ** Predicates used in the statements *)

Module props.

(** A decimal digit. *)
Definition isDecimal (c : byte) : bool := between "0" c "9".

(** The value after a call through a pointer receiver, and its error. *)
Definition after {A : Type} (r : A * option error) : A := fst r.
Definition failed {A : Type} (r : A * option error) : Prop :=
  snd r <> None.
Definition succeeded {A : Type} (r : A * option error) : Prop :=
  snd r = None.

(** An error raised by [encoding/json]. *)
Definition isJSONError (e : error) : Prop :=
  match e with
  | SyntaxError _ _ _ | UnmarshalTypeError _ _ => True
  | _ => False
  end.

(** An error raised by [strconv]. *)
Definition isNumError (e : error) : Prop :=
  match e with
  | NumError _ _ _ => True
  | _ => False
  end.

(** The first byte of the input that is not a space. *)
Definition firstNonSpace (data : bytes) : option byte :=
  hd_error (skipn (json.leadingSpaces data) data).

(** The inputs of the package's tests: [timestampJSON], and
    [timestampObject], the text
    [{ "Time" : 1356124881, "Valid" : true }] without its spaces. *)
Definition timestampJSON : bytes := lit "1356124881".
Definition timestampObject : bytes :=
  lit "{" ++ [quote] ++ lit "Time" ++ [quote] ++ lit ":1356124881,"
  ++ [quote] ++ lit "Valid" ++ [quote] ++ lit ":true}".

(** No byte of the input is a space of JSON. *)
Definition noSpaces (data : bytes) : bool :=
  forallb (fun c => negb (json.isSpace c)) data.

(** The scanner is inside a number. *)
Definition inNumber (st : json.Step) : bool :=
  match st with
  | json.stateNeg | json.state1 | json.state0 | json.stateDot
  | json.stateDot0 | json.stateE | json.stateESign | json.stateE0 => true
  | _ => false
  end.

(** The two Times do not both carry a monotonic clock reading. *)
Definition noCommonMonotonic (t u : time.Time) : Prop :=
  Z.land (Z.land (time.wall t) (time.wall u)) time.hasMonotonic = 0.

End props.
Import props.

(* ================================================================== *)
(** * Properties *)

(** ** Machine arithmetic *)

Lemma two64_val : two64 = 18446744073709551616.
Proof. reflexivity. Qed.

Lemma int64_small z : is_int64 z -> int64 z = z.
Proof.
  unfold is_int64, minInt64, maxInt64, int64. rewrite two64_val.
  change (2 ^ 63) with 9223372036854775808. intros H.
  rewrite Z.mod_small; lia.
Qed.

Lemma uint64_small z : is_uint64 z -> uint64 z = z.
Proof.
  unfold is_uint64, maxUint64, uint64. rewrite two64_val. intros H.
  apply Z.mod_small. lia.
Qed.

Lemma int64_range z : is_int64 (int64 z).
Proof.
  unfold is_int64, minInt64, maxInt64, int64. rewrite two64_val.
  change (2 ^ 63) with 9223372036854775808.
  pose proof (Z.mod_pos_bound (z + 9223372036854775808) 18446744073709551616).
  lia.
Qed.

(** Adding a constant and taking it away again, both with wrap-around. *)
Lemma int64_add_sub z c : int64 (int64 (z + c) - c) = int64 z.
Proof.
  unfold int64. rewrite two64_val. change (2 ^ 63) with 9223372036854775808.
  f_equal.
  replace ((z + c + 9223372036854775808) mod 18446744073709551616
           - 9223372036854775808 - c + 9223372036854775808)
    with ((z + c + 9223372036854775808) mod 18446744073709551616 + (- c))
    by lia.
  rewrite Zplus_mod_idemp_l. f_equal. lia.
Qed.

(** ** Package time *)

Lemma unixTime_sec s : time.sec (time.Unix s 0) = int64 (s + time.unixToInternal).
Proof. reflexivity. Qed.

Lemma Unix_nsec s : time.nsec (time.Unix s 0) = 0.
Proof. reflexivity. Qed.

Lemma Unix_wall s : time.wall (time.Unix s 0) = 0.
Proof. reflexivity. Qed.

Lemma sec_range t : time.wf t -> is_int64 (time.sec t).
Proof.
  intros [_ He]. unfold time.sec.
  destruct (negb _); [apply int64_range | exact He].
Qed.

(** [time.Unix(v, 0).Unix() == v] for every int64 [v]. *)
Lemma Unix_Time_Unix v : is_int64 v -> time.Time_Unix (time.Unix v 0) = v.
Proof.
  intros Hv. unfold time.Time_Unix, time.unixSec. rewrite unixTime_sec.
  unfold time.internalToUnix.
  replace (int64 (v + time.unixToInternal) + - time.unixToInternal)
    with (int64 (v + time.unixToInternal) - time.unixToInternal) by lia.
  rewrite int64_add_sub. now apply int64_small.
Qed.

(** [time.Unix(t.Unix(), 0)] has the seconds of [t]. *)
Lemma Unix_of_Time_Unix_sec t :
  time.wf t -> time.sec (time.Unix (time.Time_Unix t) 0) = time.sec t.
Proof.
  intros Hwf. rewrite unixTime_sec. unfold time.Time_Unix, time.unixSec.
  unfold time.internalToUnix.
  replace (time.sec t + - time.unixToInternal)
    with (time.sec t - time.unixToInternal) by lia.
  set (c := time.unixToInternal).
  replace (time.sec t - c) with (time.sec t + (- c)) by lia.
  replace (int64 (time.sec t + - c) + c)
    with (int64 (time.sec t + (- c)) - (- c)) by lia.
  rewrite int64_add_sub. apply int64_small. now apply sec_range.
Qed.

Lemma Time_Unix_range t : is_int64 (time.Time_Unix t).
Proof. apply int64_range. Qed.

(** ** Package strconv: formatting and parsing decimal numbers *)

Lemma b2z_digitAt d : 0 <= d <= 9 -> b2z (strconv.digitAt d) = 48 + d.
Proof.
  intros H.
  assert (d = 0 \/ d = 1 \/ d = 2 \/ d = 3 \/ d = 4 \/ d = 5 \/ d = 6
          \/ d = 7 \/ d = 8 \/ d = 9) as Hd by lia.
  repeat (destruct Hd as [-> | Hd]; [reflexivity |]). now subst.
Qed.

Lemma isDecimal_b2z c : isDecimal c = true <-> 48 <= b2z c <= 57.
Proof.
  unfold isDecimal, between. change (b2z "0") with 48. change (b2z "9") with 57.
  rewrite andb_true_iff, !Z.leb_le. tauto.
Qed.

Lemma isDecimal_digitAt d : 0 <= d <= 9 -> isDecimal (strconv.digitAt d) = true.
Proof. intros H. apply isDecimal_b2z. rewrite b2z_digitAt; lia. Qed.

Lemma b2z_inj c c' : b2z c = b2z c' -> c = c'.
Proof.
  unfold b2z. intros H. apply N2Z.inj in H.
  rewrite <- (ascii_N_embedding c), <- (ascii_N_embedding c'). now f_equal.
Qed.

Lemma eqb_b2z c c' : b2z c <> b2z c' -> Ascii.eqb c c' = false.
Proof. intros H. apply Ascii.eqb_neq. intros ->. now apply H. Qed.

(** A digit is not the byte [c]: closes [b2z (digitAt d) <> b2z c]. *)
Ltac digit_neq :=
  rewrite b2z_digitAt by lia;
  match goal with
  | |- _ <> b2z ?c =>
      let v := eval vm_compute in (b2z c) in change (b2z c) with v
  end;
  lia.

(** One round of the loop of [ParseUint] on a decimal digit. *)
Lemma parseLoop_digit base0 C M rest n us d :
  C = 1844674407370955162 -> M = 18446744073709551615 ->
  0 <= d <= 9 -> 0 <= n -> n * 10 + d <= M ->
  strconv.parseLoop base0 10 C M (strconv.digitAt d :: rest) n us
  = strconv.parseLoop base0 10 C M rest (n * 10 + d) us.
Proof.
  intros HC HM Hd Hn Hle. cbn [strconv.parseLoop].
  rewrite b2z_digitAt by assumption.
  replace (48 + d =? 95) with false by (symmetry; apply Z.eqb_neq; lia).
  cbn [andb].
  replace (48 <=? 48 + d) with true by (symmetry; apply Z.leb_le; lia).
  replace (48 + d <=? 57) with true by (symmetry; apply Z.leb_le; lia).
  cbn [andb].
  rewrite !Z.geb_leb.
  replace (10 <=? 48 + d - 48) with false by (symmetry; apply Z.leb_gt; lia).
  replace (C <=? n) with false by (symmetry; apply Z.leb_gt; lia).
  rewrite (uint64_small (n * 10)) by (unfold is_uint64, maxUint64; rewrite two64_val; lia).
  rewrite (uint64_small (n * 10 + (48 + d - 48)))
    by (unfold is_uint64, maxUint64; rewrite two64_val; lia).
  rewrite Z.gtb_ltb.
  replace (n * 10 + (48 + d - 48) <? n * 10) with false
    by (symmetry; apply Z.ltb_ge; lia).
  replace (M <? n * 10 + (48 + d - 48)) with false
    by (symmetry; apply Z.ltb_ge; lia).
  cbn [orb]. f_equal. lia.
Qed.

Lemma pow10_succ f : 10 ^ Z.of_nat (S f) = 10 * 10 ^ Z.of_nat f.
Proof. rewrite Nat2Z.inj_succ. apply Z.pow_succ_r. lia. Qed.

(** Reading back what [formatLoop] wrote gives the number written. *)
Lemma parseLoop_formatLoop base0 C M fuel : forall u a us,
  C = 1844674407370955162 -> M = 18446744073709551615 ->
  0 <= u <= M -> u < 10 ^ Z.of_nat fuel ->
  strconv.parseLoop base0 10 C M (strconv.formatLoop fuel u 10 a) 0 us
  = strconv.parseLoop base0 10 C M a u us.
Proof.
  induction fuel as [| f IH]; intros u a us HC HM Hu Hlt.
  - change (10 ^ Z.of_nat 0) with 1 in Hlt. cbn [strconv.formatLoop].
    f_equal. lia.
  - cbn [strconv.formatLoop]. rewrite pow10_succ in Hlt.
    rewrite Z.geb_leb. destruct (Z.leb_spec 10 u) as [Hge | Hsmall].
    + cbv zeta.
      assert (0 <= u / 10) by (apply Z.div_pos; lia).
      assert (u / 10 < 10 ^ Z.of_nat f)
        by (apply Z.div_lt_upper_bound; lia).
      pose proof (Z.div_mod u 10 ltac:(lia)) as Hdm.
      pose proof (Z.mod_pos_bound u 10 ltac:(lia)) as Hmod.
      rewrite IH by (auto; lia).
      rewrite parseLoop_digit by (auto; lia).
      f_equal. lia.
    + rewrite parseLoop_digit by (auto; lia). f_equal.
Qed.

(** The shape of what [formatLoop] writes in base 10: a leading digit, which
    is zero only for the number zero, and decimal digits after it. *)
Lemma formatLoop_shape fuel : forall u a,
  0 <= u < 10 ^ Z.of_nat fuel -> (0 < fuel)%nat ->
  exists d rest,
    0 <= d <= 9
    /\ (d = 0 -> u = 0 /\ rest = a)
    /\ strconv.formatLoop fuel u 10 a = strconv.digitAt d :: rest
    /\ (forallb isDecimal a = true -> forallb isDecimal rest = true).
Proof.
  induction fuel as [| f IH]; intros u a Hu Hf; [inversion Hf |].
  cbn [strconv.formatLoop]. rewrite pow10_succ in Hu.
  rewrite Z.geb_leb. destruct (Z.leb_spec 10 u) as [Hge | Hsmall].
  - cbv zeta.
    assert (1 <= u / 10) by (apply Z.div_le_lower_bound; lia).
    assert (u / 10 < 10 ^ Z.of_nat f)
      by (apply Z.div_lt_upper_bound; lia).
    pose proof (Z.div_mod u 10 ltac:(lia)) as Hdm.
    pose proof (Z.mod_pos_bound u 10 ltac:(lia)) as Hmod.
    assert (0 < f)%nat as Hf'.
    { destruct f; [| lia]. change (10 ^ Z.of_nat 0) with 1 in *. lia. }
    destruct (IH (u / 10) (strconv.digitAt (u - u / 10 * 10) :: a))
      as (d & rest & Hd & Hz & Heq & Hdec); [lia | assumption |].
    exists d, rest. split; [lia |]. split; [| split; [assumption |]].
    + intros ->. destruct Hz as [Hz _]; [reflexivity | lia].
    + intros Ha. apply Hdec. cbn [forallb].
      rewrite isDecimal_digitAt by lia. exact Ha.
  - exists u, a. split; [lia |]. split; [| split; [reflexivity | auto]].
    intros H0. split; [exact H0 | reflexivity].
Qed.

Lemma maxUint64_lt_pow : maxUint64 < 10 ^ Z.of_nat 65.
Proof. vm_compute. reflexivity. Qed.

(** The digits of an unsigned number, as [FormatInt] writes them. *)
Lemma formatLoop65_shape u :
  0 <= u <= maxUint64 ->
  exists d rest,
    0 <= d <= 9 /\ (d = 0 -> u = 0 /\ rest = [])
    /\ strconv.formatLoop 65 u 10 [] = strconv.digitAt d :: rest
    /\ forallb isDecimal rest = true.
Proof.
  intros Hu. pose proof maxUint64_lt_pow.
  destruct (formatLoop_shape 65 u []) as (d & rest & Hd & Hz & Heq & Hdec);
    [lia | lia |].
  exists d, rest. split; [lia |]. split; [exact Hz |]. split; auto.
Qed.

Lemma cutoff10 : maxUint64 / 10 + 1 = 1844674407370955162.
Proof. reflexivity. Qed.

Lemma maxVal64 : uint64 (Z.shiftl 1 64 - 1) = 18446744073709551615.
Proof. reflexivity. Qed.

(** [ParseUint] reads back the decimal digits of [u], in base 10 and with
    the base left to the prefix. *)
Lemma ParseUint_formatLoop u base :
  0 <= u <= maxUint64 -> base = 10 \/ base = 0 ->
  strconv.ParseUint (strconv.formatLoop 65 u 10 []) base 64 = (u, None).
Proof.
  intros Hu Hbase.
  destruct (formatLoop65_shape u Hu) as (d & rest & Hd & Hz & Heq & Hdec).
  assert (strconv.parseLoop (base =? 0) 10 1844674407370955162
            18446744073709551615 (strconv.digitAt d :: rest) 0 false
          = inl (u, false)) as Hloop.
  { rewrite <- Heq.
    rewrite (parseLoop_formatLoop _ _ _ 65 u [] false eq_refl eq_refl);
      [reflexivity | | ].
    - unfold maxUint64 in Hu. rewrite two64_val in Hu. lia.
    - pose proof maxUint64_lt_pow. lia. }
  rewrite Heq. unfold strconv.ParseUint.
  destruct Hbase as [-> | ->].
  - cbn [Z.leb Z.compare andb Pos.compare Pos.compare_cont Z.eqb negb orb
         Z.ltb Z.gtb strconv.IntSize].
    rewrite cutoff10, maxVal64. change (10 =? 0) with false in Hloop.
    rewrite Hloop. reflexivity.
  - change (0 =? 0) with true in *.
    cbn [Z.leb Z.compare andb Pos.compare Pos.compare_cont Z.eqb negb orb
         Z.ltb Z.gtb strconv.IntSize].
    destruct (Z.eq_dec d 0) as [-> | Hnz].
    + destruct Hz as [-> ->]; reflexivity.
    + rewrite eqb_b2z by digit_neq.
      rewrite cutoff10, maxVal64. rewrite Hloop. reflexivity.
Qed.

Lemma FormatInt_nonneg i :
  0 <= i <= maxInt64 -> strconv.FormatInt i 10 = strconv.formatLoop 65 i 10 [].
Proof.
  intros Hi. unfold strconv.FormatInt, strconv.formatBits.
  replace (i <? 0) with false by (symmetry; apply Z.ltb_ge; lia).
  rewrite uint64_small; [reflexivity |].
  unfold is_uint64, maxUint64, maxInt64 in *. rewrite two64_val.
  change (2 ^ 63) with 9223372036854775808 in Hi. lia.
Qed.

Lemma FormatInt_neg i :
  minInt64 <= i < 0 ->
  strconv.FormatInt i 10 = "-"%char :: strconv.formatLoop 65 (- i) 10 [].
Proof.
  intros Hi. unfold strconv.FormatInt, strconv.formatBits.
  replace (i <? 0) with true by (symmetry; apply Z.ltb_lt; lia).
  replace (uint64 (- uint64 i)) with (- i); [reflexivity |].
  unfold uint64, minInt64 in *. rewrite two64_val.
  change (2 ^ 63) with 9223372036854775808 in Hi.
  Z.div_mod_to_equations. lia.
Qed.

Lemma int64_neg_neg i : is_int64 i -> int64 (- int64 (- i)) = i.
Proof.
  unfold is_int64, minInt64, maxInt64, int64. rewrite two64_val.
  change (2 ^ 63) with 9223372036854775808. intros Hi.
  Z.div_mod_to_equations. lia.
Qed.

(** The first byte of [FormatInt(i, 10)] is a minus sign or a digit, and
    what follows is digits. *)
Lemma FormatInt_shape i :
  is_int64 i ->
  exists d rest,
    0 <= d <= 9 /\ forallb isDecimal rest = true
    /\ (d = 0 -> rest = [])
    /\ ((0 <= i /\ strconv.FormatInt i 10 = strconv.digitAt d :: rest)
        \/ (i < 0 /\ 1 <= d
            /\ strconv.FormatInt i 10 = "-"%char :: strconv.digitAt d :: rest)).
Proof.
  intros Hi. unfold is_int64, minInt64, maxInt64 in Hi.
  change (2 ^ 63) with 9223372036854775808 in Hi.
  destruct (Z.lt_ge_cases i 0) as [Hneg | Hpos].
  - destruct (formatLoop65_shape (- i)) as (d & rest & Hd & Hz & Heq & Hdec).
    { unfold maxUint64. rewrite two64_val. lia. }
    exists d, rest. split; [exact Hd |]. split; [exact Hdec |].
    split; [intros H0; now apply Hz |]. right.
    split; [exact Hneg |]. split.
    + destruct (Z.eq_dec d 0) as [H0 | H0]; [| lia].
      destruct (Hz H0) as [Hu _]. lia.
    + rewrite FormatInt_neg, Heq; [reflexivity |].
      unfold minInt64. change (2 ^ 63) with 9223372036854775808. lia.
  - destruct (formatLoop65_shape i) as (d & rest & Hd & Hz & Heq & Hdec).
    { unfold maxUint64. rewrite two64_val. lia. }
    exists d, rest. split; [exact Hd |]. split; [exact Hdec |].
    split; [intros H0; now apply Hz |]. left.
    split; [lia |]. rewrite FormatInt_nonneg, Heq; [reflexivity |].
    unfold maxInt64. change (2 ^ 63) with 9223372036854775808. lia.
Qed.

(** [ParseInt] reads back what [FormatInt] wrote, in base 10 and with the
    base left to the prefix. *)
Lemma ParseInt_FormatInt i base :
  is_int64 i -> base = 10 \/ base = 0 ->
  strconv.ParseInt (strconv.FormatInt i 10) base 64 = (i, None).
Proof.
  intros Hi Hbase. pose proof Hi as Hr.
  unfold is_int64, minInt64, maxInt64 in Hr.
  change (2 ^ 63) with 9223372036854775808 in Hr.
  destruct (Z.lt_ge_cases i 0) as [Hneg | Hpos].
  - rewrite FormatInt_neg
      by (unfold minInt64; change (2 ^ 63) with 9223372036854775808; lia).
    unfold strconv.ParseInt.
    change (Ascii.eqb "-" "+") with false. change (Ascii.eqb "-" "-") with true.
    cbv iota.
    rewrite ParseUint_formatLoop
      by (auto; unfold maxUint64; rewrite two64_val; lia).
    unfold strconv.signed. cbn [negb andb].
    change (uint64 (Z.shiftl 1 ((if 64 =? 0 then strconv.IntSize else 64) - 1)))
      with 9223372036854775808.
    rewrite Z.gtb_ltb.
    replace (9223372036854775808 <? - i) with false
      by (symmetry; apply Z.ltb_ge; lia).
    rewrite int64_neg_neg by assumption. reflexivity.
  - rewrite FormatInt_nonneg
      by (unfold maxInt64; change (2 ^ 63) with 9223372036854775808; lia).
    destruct (formatLoop65_shape i) as (d & rest & Hd & Hz & Heq & Hdec).
    { unfold maxUint64. rewrite two64_val. lia. }
    unfold strconv.ParseInt.
    pose proof (ParseUint_formatLoop i base) as HP. rewrite Heq in *.
    rewrite !eqb_b2z by digit_neq.
    cbv beta iota zeta.
    rewrite HP by (auto; unfold maxUint64; rewrite two64_val; lia).
    unfold strconv.signed. cbn [negb andb].
    change (uint64 (Z.shiftl 1 ((if 64 =? 0 then strconv.IntSize else 64) - 1)))
      with 9223372036854775808.
    rewrite Z.geb_leb.
    replace (9223372036854775808 <=? i) with false
      by (symmetry; apply Z.leb_gt; lia).
    rewrite int64_small by assumption. reflexivity.
Qed.

(** [FormatInt(i, 10)] is neither empty nor the text [null]. *)
Lemma FormatInt_not_null i :
  is_int64 i ->
  bytes_eqb (strconv.FormatInt i 10) (lit "") = false
  /\ bytes_eqb (strconv.FormatInt i 10) (lit "null") = false.
Proof.
  intros Hi.
  destruct (FormatInt_shape i Hi) as (d & rest & Hd & _ & _ & [[_ ->] | (_ & _ & ->)]).
  - split; [reflexivity |]. cbn [lit list_ascii_of_string bytes_eqb].
    rewrite eqb_b2z by digit_neq. reflexivity.
  - split; reflexivity.
Qed.

(** ** Package encoding/json: decimal numbers *)

(** A byte that the scanner takes without an error moves the loop of
    [checkValid] one byte on. *)
Lemma checkLoop_step c rest s s' op :
  json.doStep (json.mkScanner (json.step s) (json.endTop s)
                 (json.parseState s) (json.err s) (json.nbytes s + 1)) c
  = (s', op) ->
  json.isScanError op = false ->
  json.checkLoop (c :: rest) s = json.checkLoop rest s'.
Proof.
  intros Hstep Hop. cbn [json.checkLoop]. rewrite Hstep, Hop. reflexivity.
Qed.

(** Inside a number, after its first digit, digits are valid up to the end
    of the input. *)
Lemma checkLoop_digits ds : forall s,
  forallb isDecimal ds = true ->
  json.step s = json.state1 -> json.parseState s = [] ->
  json.err s = None -> json.endTop s = false ->
  snd (json.checkLoop ds s) = None.
Proof.
  induction ds as [| c ds IH]; intros [st et ps er nb] Hdec Hst Hps Her Het;
    cbn in Hst, Hps, Her, Het; subst.
  - reflexivity.
  - cbn [forallb] in Hdec. apply andb_true_iff in Hdec as [Hc Hds].
    rewrite (checkLoop_step c ds _
               (json.mkScanner json.state1 false [] None (nb + 1))
               json.scanContinue).
    + apply IH; [exact Hds | ..]; reflexivity.
    + unfold json.doStep, json.f_state1. cbn [json.step].
      unfold isDecimal in Hc. rewrite Hc. reflexivity.
    + reflexivity.
Qed.

Lemma nonzero_digit_cases d :
  1 <= d <= 9 ->
  d = 1 \/ d = 2 \/ d = 3 \/ d = 4 \/ d = 5 \/ d = 6 \/ d = 7 \/ d = 8 \/ d = 9.
Proof. lia. Qed.

(** A number that starts with a digit other than zero is valid JSON. *)
Lemma checkValid_digits d rest :
  1 <= d <= 9 -> forallb isDecimal rest = true ->
  json.checkValid (strconv.digitAt d :: rest) = None.
Proof.
  intros Hd Hdec. unfold json.checkValid.
  apply nonzero_digit_cases in Hd.
  repeat (destruct Hd as [-> | Hd];
          [erewrite checkLoop_step by (vm_compute; reflexivity);
           apply checkLoop_digits; [exact Hdec | ..]; reflexivity |]).
  subst d. erewrite checkLoop_step by (vm_compute; reflexivity).
  apply checkLoop_digits; [exact Hdec | ..]; reflexivity.
Qed.

(** So is its negation. *)
Lemma checkValid_neg_digits d rest :
  1 <= d <= 9 -> forallb isDecimal rest = true ->
  json.checkValid ("-"%char :: strconv.digitAt d :: rest) = None.
Proof.
  intros Hd Hdec. unfold json.checkValid.
  erewrite checkLoop_step by (vm_compute; reflexivity).
  apply nonzero_digit_cases in Hd.
  repeat (destruct Hd as [-> | Hd];
          [erewrite checkLoop_step by (vm_compute; reflexivity);
           apply checkLoop_digits; [exact Hdec | ..]; reflexivity |]).
  subst d. erewrite checkLoop_step by (vm_compute; reflexivity).
  apply checkLoop_digits; [exact Hdec | ..]; reflexivity.
Qed.

(** What [FormatInt] writes is valid JSON. *)
Lemma checkValid_FormatInt i :
  is_int64 i -> json.checkValid (strconv.FormatInt i 10) = None.
Proof.
  intros Hi.
  destruct (FormatInt_shape i Hi)
    as (d & rest & Hd & Hdec & Hz & [[_ ->] | (_ & Hd1 & ->)]).
  - destruct (Z.eq_dec d 0) as [-> | Hnz].
    + rewrite (Hz eq_refl). reflexivity.
    + apply checkValid_digits; [lia | exact Hdec].
  - apply checkValid_neg_digits; [lia | exact Hdec].
Qed.

Lemma isNumberByte_decimal c : isDecimal c = true -> json.isNumberByte c = true.
Proof. intros H. unfold json.isNumberByte. unfold isDecimal in H. now rewrite H. Qed.

Lemma rescanNumber_decimal rest :
  forallb isDecimal rest = true -> json.rescanNumber rest = List.length rest.
Proof.
  induction rest as [| c r IH]; [reflexivity |]. cbn [forallb].
  intros H. apply andb_true_iff in H as [Hc Hr].
  cbn [json.rescanNumber List.length]. rewrite isNumberByte_decimal by exact Hc.
  now rewrite IH.
Qed.

Lemma isSpace_digitAt d : 0 <= d <= 9 -> json.isSpace (strconv.digitAt d) = false.
Proof.
  intros Hd. unfold json.isSpace. rewrite b2z_digitAt by exact Hd.
  replace (48 + d <=? 32) with false by (symmetry; apply Z.leb_gt; lia).
  reflexivity.
Qed.

(** The decoder's part of [Unmarshal], on a number that starts with a digit:
    the whole text goes to [ParseInt]. *)
Lemma literalStore_digits d rest n off v0 :
  0 <= d <= 9 ->
  strconv.ParseInt (strconv.digitAt d :: rest) 10 64 = (n, None) ->
  json.literalStore (strconv.digitAt d :: rest) off v0 = (n, None).
Proof.
  intros Hd HP. unfold json.literalStore.
  rewrite !eqb_b2z by digit_neq. cbn [orb]. rewrite HP. reflexivity.
Qed.

(** [json.Unmarshal] into an int64 reads back what [FormatInt] wrote. *)
Lemma Unmarshal_FormatInt i v0 :
  is_int64 i -> json.Unmarshal_int64 (strconv.FormatInt i 10) v0 = (i, None).
Proof.
  intros Hi. unfold json.Unmarshal_int64.
  rewrite checkValid_FormatInt by exact Hi.
  pose proof (ParseInt_FormatInt i 10 Hi (or_introl eq_refl)) as HP.
  destruct (FormatInt_shape i Hi)
    as (d & rest & Hd & Hdec & Hz & [[_ Heq] | (_ & Hd1 & Heq)]);
    rewrite Heq in *.
  - cbn [json.leadingSpaces]. rewrite isSpace_digitAt by exact Hd.
    cbn [skipn]. rewrite !eqb_b2z by digit_neq.
    unfold json.rescanLiteral. rewrite !eqb_b2z by digit_neq.
    replace (between "0" (strconv.digitAt d) "9") with true
      by (symmetry; now apply isDecimal_digitAt).
    cbn [orb]. rewrite rescanNumber_decimal by exact Hdec.
    rewrite firstn_all. now apply literalStore_digits.
  - change (json.leadingSpaces ("-"%char :: strconv.digitAt d :: rest)) with O.
    cbn [skipn].
    change (Ascii.eqb "-" "[") with false. change (Ascii.eqb "-" "{") with false.
    cbv iota.
    change (json.rescanLiteral "-"%char (strconv.digitAt d :: rest))
      with (json.rescanNumber (strconv.digitAt d :: rest)).
    rewrite rescanNumber_decimal
      by (cbn [forallb]; rewrite isDecimal_digitAt by exact Hd; exact Hdec).
    rewrite firstn_all. unfold json.literalStore.
    change (Ascii.eqb "-" "n") with false.
    change (Ascii.eqb "-" "t") with false.
    change (Ascii.eqb "-" "f") with false.
    change (Ascii.eqb "-" quote) with false.
    cbn [orb]. rewrite HP. reflexivity.
Qed.

(** ** Helper facts on the decoders *)

Lemma bytes_eqb_eq a : forall b, bytes_eqb a b = true <-> a = b.
Proof.
  induction a as [| x a IH]; intros [| y b]; cbn [bytes_eqb].
  - split; reflexivity.
  - split; intros H; discriminate H.
  - split; intros H; discriminate H.
  - rewrite andb_true_iff, IH, Ascii.eqb_eq. split.
    + intros [-> ->]. reflexivity.
    + intros H. injection H as -> ->. auto.
Qed.

Lemma bytes_eqb_neq a b : a <> b -> bytes_eqb a b = false.
Proof.
  intros H. destruct (bytes_eqb a b) eqn:E; [| reflexivity].
  apply bytes_eqb_eq in E. contradiction.
Qed.

(** The value [ParseInt] returns without an error is an int64. *)
Lemma signed_range fn s0 un neg v :
  strconv.signed fn s0 un neg 64 = (v, None) -> is_int64 v.
Proof.
  unfold strconv.signed.
  destruct (negb neg && _); [discriminate |].
  destruct (neg && _); [discriminate |].
  intros H. injection H as <-. destruct neg; apply int64_range.
Qed.

Lemma ParseInt_range s base v :
  strconv.ParseInt s base 64 = (v, None) -> is_int64 v.
Proof.
  unfold strconv.ParseInt. destruct s as [| c0 tl]; [discriminate |].
  destruct (Ascii.eqb c0 "+"); [| destruct (Ascii.eqb c0 "-")];
    cbv beta iota zeta;
    match goal with
    | |- context [strconv.ParseUint ?s base 64] =>
        destruct (strconv.ParseUint s base 64) as [un [e |]]
    end;
    try apply signed_range;
    (destruct (negb (strconv.isErrRange e));
     [discriminate | apply signed_range]).
Qed.

(** Unfolds one step of the scanner in [H], down to the tests on the byte
    and on the stack. *)
Ltac scanner_unfold H :=
  cbv beta iota zeta delta
    [json.doStep json.f_stateBeginValueOrEmpty json.f_stateBeginValue
     json.f_stateBeginStringOrEmpty json.f_stateBeginString
     json.f_stateEndValue json.f_stateEndTop json.f_stateInString
     json.f_stateInStringEsc json.f_stateInStringEscHex json.f_stateNeg
     json.f_state1 json.f_state0 json.f_stateDot json.f_stateDot0
     json.f_stateE json.f_stateESign json.f_stateE0 json.f_letter
     json.pushParseState json.popParseState json.setTop json.setStep
     json.error_ json.parseState json.err json.step json.endTop
     json.nbytes fst snd tl] in H.

(** The error of [json.Unmarshal] into an int64 is one of the package's. *)
Lemma checkLoop_error data : forall s e,
  (forall e', json.err s = Some e' -> isJSONError e') ->
  snd (json.checkLoop data s) = Some e -> isJSONError e.
Proof.
  assert (Hstep : forall s c,
             (forall e', json.err s = Some e' -> isJSONError e') ->
             forall e', json.err (fst (json.doStep s c)) = Some e' ->
                        isJSONError e').
  { intros [st et ps er nb] c Hs e' H. cbn in Hs.
    destruct st; scanner_unfold H;
      repeat (match type of H with
              | context [if ?b then _ else _] => destruct b
              | context [match ?l with [] => _ | _ :: _ => _ end] => destruct l
              | context [match ?p with json.parseObjectKey => _ | _ => _ end] =>
                  destruct p
              end; scanner_unfold H);
      first [ injection H as <-; exact I | apply Hs; exact H ]. }
  induction data as [| c rest IH]; intros s e Hs.
  - cbn [json.checkLoop]. unfold json.eof.
    destruct (json.err s) as [e0 |] eqn:E0.
    + cbn. rewrite E0. intros H. injection H as <-. apply Hs. reflexivity.
    + destruct (json.endTop s); [cbn; discriminate |].
      destruct (json.endTop (fst (json.doStep s " "%char))); [cbn; discriminate |].
      destruct (json.err (fst (json.doStep s " "%char))) as [e1 |] eqn:E1.
      * cbn. rewrite E1. intros H. injection H as <-.
        apply (Hstep s " "%char); [rewrite E0; exact Hs | exact E1].
      * cbn. intros H. injection H as <-. exact I.
  - cbn [json.checkLoop].
    set (s1 := json.mkScanner (json.step s) (json.endTop s)
                 (json.parseState s) (json.err s) (json.nbytes s + 1)).
    assert (Hs1 : forall e', json.err s1 = Some e' -> isJSONError e')
      by exact Hs.
    pose proof (Hstep s1 c Hs1) as Hnext.
    destruct (json.doStep s1 c) as [s2 op]. cbn [fst] in Hnext.
    destruct (json.isScanError op).
    + cbn. intros H. apply Hnext. exact H.
    + apply IH. exact Hnext.
Qed.

Lemma checkValid_error data e :
  json.checkValid data = Some e -> isJSONError e.
Proof.
  unfold json.checkValid. apply checkLoop_error. cbn. discriminate.
Qed.

Lemma literalStore_error item off v0 v e :
  json.literalStore item off v0 = (v, Some e) -> isJSONError e.
Proof.
  unfold json.literalStore. destruct item as [| c r]; [discriminate |].
  destruct (Ascii.eqb c "n"); [discriminate |].
  destruct (Ascii.eqb c "t" || Ascii.eqb c "f").
  { intros H. injection H as _ <-. exact I. }
  destruct (Ascii.eqb c quote).
  { intros H. injection H as _ <-. exact I. }
  destruct (strconv.ParseInt (c :: r) 10 64) as [n [e0 |]].
  - intros H. injection H as _ <-. exact I.
  - discriminate.
Qed.

Lemma Unmarshal_error data v0 v e :
  json.Unmarshal_int64 data v0 = (v, Some e) -> isJSONError e.
Proof.
  unfold json.Unmarshal_int64.
  destruct (json.checkValid data) as [e0 |] eqn:E0.
  { intros H. injection H as _ <-. now apply checkValid_error with data. }
  destruct (skipn (json.leadingSpaces data) data) as [| c rest].
  { intros H. injection H as _ <-. exact I. }
  destruct (Ascii.eqb c "[").
  { intros H. injection H as _ <-. exact I. }
  destruct (Ascii.eqb c "{").
  { intros H. injection H as _ <-. exact I. }
  apply literalStore_error.
Qed.

(** The error of [ParseInt] is a [NumError]. *)
Lemma ParseUint_error s base bitSize v e :
  strconv.ParseUint s base bitSize = (v, Some e) -> isNumError e.
Proof.
  unfold strconv.ParseUint. destruct s as [| c0 tl].
  { intros H. injection H as _ <-. exact I. }
  match goal with
  | |- context [match ?p with Some _ => _ | None => _ end] => destruct p as [[b digs] |]
  end.
  2: { intros H. injection H as _ <-. exact I. }
  destruct (negb (bitSize =? 0) && _).
  { intros H. injection H as _ <-. exact I. }
  destruct (strconv.parseLoop _ _ _ _ _ _ _) as [[n us] | [v' k]].
  - destruct (us && _); [| discriminate].
    intros H. injection H as _ <-. exact I.
  - intros H. injection H as _ <-. exact I.
Qed.

Lemma signed_error fn s0 un neg bitSize v e :
  strconv.signed fn s0 un neg bitSize = (v, Some e) -> isNumError e.
Proof.
  unfold strconv.signed.
  destruct (negb neg && _). { intros H. injection H as _ <-. exact I. }
  destruct (neg && _). { intros H. injection H as _ <-. exact I. }
  discriminate.
Qed.

Lemma ParseInt_error s base bitSize v e :
  strconv.ParseInt s base bitSize = (v, Some e) -> isNumError e.
Proof.
  unfold strconv.ParseInt. destruct s as [| c0 tl].
  { intros H. injection H as _ <-. exact I. }
  destruct (Ascii.eqb c0 "+"); [| destruct (Ascii.eqb c0 "-")];
    cbv beta iota zeta;
    match goal with
    | |- context [strconv.ParseUint ?s base bitSize] =>
        destruct (strconv.ParseUint s base bitSize) as [un [e0 |]] eqn:EU
    end;
    try apply signed_error;
    (apply ParseUint_error in EU;
     destruct (negb (strconv.isErrRange e0)); [| apply signed_error];
     intros H; injection H as _ <-; destruct e0; try contradiction; exact I).
Qed.

(** Input of spaces only is not valid JSON, so the decoder in
    [json.Unmarshal_int64] always finds a first byte of a value. *)
Lemma checkLoop_spaces data : forall s,
  forallb json.isSpace data = true ->
  json.step s = json.stateBeginValue -> json.err s = None ->
  json.endTop s = false ->
  snd (json.checkLoop data s) <> None.
Proof.
  induction data as [| c rest IH]; intros [st et ps er nb] Hsp Hst Her Het;
    cbn in Hst, Her, Het; subst.
  - cbn. discriminate.
  - cbn [forallb] in Hsp. apply andb_true_iff in Hsp as [Hc Hrest].
    rewrite (checkLoop_step c rest _
               (json.mkScanner json.stateBeginValue false ps None (nb + 1))
               json.scanSkipSpace).
    + apply IH; [exact Hrest | ..]; reflexivity.
    + unfold json.doStep, json.f_stateBeginValue. cbn [json.step].
      rewrite Hc. reflexivity.
    + reflexivity.
Qed.

Lemma skipn_leadingSpaces_nil data :
  skipn (json.leadingSpaces data) data = [] ->
  forallb json.isSpace data = true.
Proof.
  induction data as [| c rest IH]; [reflexivity |].
  cbn [json.leadingSpaces forallb].
  destruct (json.isSpace c); [| discriminate]. cbn [skipn andb]. exact IH.
Qed.

Lemma checkValid_has_value data :
  json.checkValid data = None ->
  skipn (json.leadingSpaces data) data <> [].
Proof.
  intros Hok Hnil. apply skipn_leadingSpaces_nil in Hnil.
  revert Hok. apply checkLoop_spaces; [exact Hnil | ..]; reflexivity.
Qed.

(** An object, an array or a string never decodes into an int64. *)
Lemma Unmarshal_wrong_shape data v0 c :
  firstNonSpace data = Some c ->
  c = "{"%char \/ c = "["%char \/ c = quote ->
  snd (json.Unmarshal_int64 data v0) <> None.
Proof.
  unfold firstNonSpace, json.Unmarshal_int64. intros Hc Hshape.
  destruct (json.checkValid data); [cbn; discriminate |].
  destruct (skipn (json.leadingSpaces data) data) as [| c' rest];
    [discriminate |].
  cbn in Hc. injection Hc as ->.
  destruct Hshape as [-> | [-> | ->]]; cbn; discriminate.
Qed.

(** ** Timestamp: what the decoders do on each path *)

Lemma UnmarshalJSON_FormatInt t0 v :
  is_int64 v ->
  UnmarshalJSON t0 (strconv.FormatInt v 10)
  = (NewTimestamp (time.Unix v 0) true, None).
Proof.
  intros Hv. unfold UnmarshalJSON, nullBytes.
  destruct (FormatInt_not_null v Hv) as [_ ->].
  rewrite Unmarshal_FormatInt by exact Hv. reflexivity.
Qed.

Lemma UnmarshalText_FormatInt t0 v :
  is_int64 v ->
  UnmarshalText t0 (strconv.FormatInt v 10)
  = (NewTimestamp (time.Unix v 0) true, None).
Proof.
  intros Hv. unfold UnmarshalText.
  destruct (FormatInt_not_null v Hv) as [-> ->]. cbn [orb].
  rewrite ParseInt_FormatInt by (auto; exact Hv). reflexivity.
Qed.

(** An instant of whole seconds is [Equal] to the instant rebuilt from its
    Unix seconds. *)
Lemma Time_Equal_Unix i :
  time.wf i -> time.nsec i = 0 ->
  time.Time_Equal (time.Unix (time.Time_Unix i) 0) i = true.
Proof.
  intros Hwf Hns. unfold time.Time_Equal.
  rewrite Unix_wall, Z.land_0_l. cbn [Z.land Z.eqb negb].
  rewrite Unix_of_Time_Unix_sec by exact Hwf.
  rewrite Unix_nsec, Hns, Z.eqb_refl. reflexivity.
Qed.

(** Two instants with the same seconds and nanoseconds, not both carrying
    a monotonic clock reading, are the same instant for [Time.Equal]:
    06:00 at +0200 and 04:00 UTC, say. *)
Lemma Time_Equal_same_seconds t u :
  Z.land (Z.land (time.wall t) (time.wall u)) time.hasMonotonic = 0 ->
  time.sec t = time.sec u -> time.nsec t = time.nsec u ->
  time.Time_Equal t u = true.
Proof.
  intros Hmono Hsec Hnsec. unfold time.Time_Equal.
  rewrite Hmono, Hsec, Hnsec, !Z.eqb_refl. reflexivity.
Qed.

(** A failed decode returns the receiver as it was. *)
Lemma UnmarshalJSON_failure t data e :
  snd (UnmarshalJSON t data) = Some e ->
  fst (UnmarshalJSON t data) = t
  /\ exists cause,
       e = Errorf_w "null: couldn't unmarshal JSON" cause /\ isJSONError cause.
Proof.
  unfold UnmarshalJSON.
  destruct (bytes_eqb data nullBytes); [discriminate |].
  destruct (json.Unmarshal_int64 data 0) as [v [e0 |]] eqn:EU;
    [| discriminate].
  cbn. intros H. injection H as <-. split; [reflexivity |].
  exists e0. split; [reflexivity |]. now apply Unmarshal_error in EU.
Qed.

Lemma UnmarshalText_failure t text e :
  snd (UnmarshalText t text) = Some e ->
  fst (UnmarshalText t text) = t
  /\ exists cause,
       e = Errorf_w "null: couldn't unmarshal text" cause /\ isNumError cause.
Proof.
  unfold UnmarshalText.
  destruct (bytes_eqb text (lit "") || bytes_eqb text (lit "null"));
    [discriminate |].
  destruct (strconv.ParseInt text 0 64) as [v [e0 |]] eqn:EP;
    [| discriminate].
  cbn. intros H. injection H as <-. split; [reflexivity |].
  exists e0. split; [reflexivity |]. now apply ParseInt_error in EP.
Qed.

(** A concrete well-formed instant: 2012-12-21 21:21:21 UTC. *)
Lemma wf_Unix_example : time.wf (time.Unix 1356124881 0).
Proof.
  unfold time.wf, is_uint64, is_int64, maxUint64, minInt64, maxInt64.
  rewrite two64_val. change (2 ^ 63) with 9223372036854775808.
  vm_compute (time.wall _). vm_compute (time.ext _). lia.
Qed.

(** ** Scenarios of the package's tests *)

Example scenario_marshal :
  MarshalJSON (TimestampFrom (time.Unix 1356124881 0)) = (timestampJSON, None).
Proof. reflexivity. Qed.

Example scenario_unmarshal :
  UnmarshalJSON (NewTimestamp time.zero false) timestampJSON
  = (TimestampFrom (time.Unix 1356124881 0), None).
Proof. vm_compute. reflexivity. Qed.

Example scenario_object_rejected :
  UnmarshalJSON (NewTimestamp time.zero false) timestampObject
  = (NewTimestamp time.zero false,
     Some (Errorf_w "null: couldn't unmarshal JSON"
                    (UnmarshalTypeError "object" 1))).
Proof. vm_compute. reflexivity. Qed.

Example scenario_malformed_token :
  UnmarshalJSON (NewTimestamp time.zero false) (lit ":)")
  = (NewTimestamp time.zero false,
     Some (Errorf_w "null: couldn't unmarshal JSON"
             (SyntaxError (Some ":"%char)
                          "looking for beginning of value" 1))).
Proof. vm_compute. reflexivity. Qed.

Example scenario_bad_text :
  UnmarshalText (NewTimestamp time.zero false) (lit "hello world")
  = (NewTimestamp time.zero false,
     Some (Errorf_w "null: couldn't unmarshal text"
             (NumError "ParseInt" (lit "hello world") ErrSyntax))).
Proof. vm_compute. reflexivity. Qed.

Example scenario_scan_time :
  Scan (NewTimestamp time.zero false) (sql.VTime (time.Unix 1356124881 0))
  = (TimestampFrom (time.Unix 1356124881 0), None).
Proof. reflexivity. Qed.

Example scenario_scan_nil :
  Scan (TimestampFrom (time.Unix 1356124881 0)) sql.VNil
  = (NewTimestamp time.zero false, None).
Proof. reflexivity. Qed.

Example scenario_prefixes :
  strconv.ParseInt (lit "0b101") 0 64 = (5, None)
  /\ strconv.ParseInt (lit "0o17") 0 64 = (15, None)
  /\ strconv.ParseInt (lit "017") 0 64 = (15, None)
  /\ strconv.ParseInt (lit "-0x1F") 0 64 = (-31, None)
  /\ strconv.ParseInt (lit "1_000") 0 64 = (1000, None).
Proof. repeat split. Qed.

(* ================================================================== *)
(** * The claims *)

(** C1.  Round trip.  For every instant [i] of whole seconds, marshalling
    [TimestampFrom i] to JSON succeeds, unmarshalling the bytes into any
    receiver succeeds, and the receiver is then [Equal] to
    [TimestampFrom i]; the same holds through [MarshalText] and
    [UnmarshalText]. *)
Theorem C1_round_trip (i : time.Time) (t0 : Timestamp) :
  time.wf i -> time.nsec i = 0 ->
  let j := MarshalJSON (TimestampFrom i) in
  let x := MarshalText (TimestampFrom i) in
  (snd j = None
   /\ snd (UnmarshalJSON t0 (fst j)) = None
   /\ Equal (fst (UnmarshalJSON t0 (fst j))) (TimestampFrom i) = true)
  /\ (snd x = None
      /\ snd (UnmarshalText t0 (fst x)) = None
      /\ Equal (fst (UnmarshalText t0 (fst x))) (TimestampFrom i) = true).
Proof.
  intros Hwf Hns j x. subst j x.
  unfold MarshalJSON, MarshalText. cbn [TimestampFrom NewTimestamp Valid
    NullTime sql.Valid negb null.Time sql.Time fst snd].
  rewrite UnmarshalJSON_FormatInt by apply Time_Unix_range.
  rewrite UnmarshalText_FormatInt by apply Time_Unix_range.
  cbn [fst snd]. unfold Equal.
  cbn [TimestampFrom NewTimestamp Valid NullTime sql.Valid negb null.Time
       sql.Time Bool.eqb orb andb].
  rewrite Time_Equal_Unix by assumption. repeat split.
Qed.

Lemma C1_round_trip_witness :
  let i := time.Unix 1356124881 0 in
  let t0 := NewTimestamp time.zero false in
  Equal (fst (UnmarshalJSON t0 (fst (MarshalJSON (TimestampFrom i)))))
        (TimestampFrom i) = true
  /\ Equal (fst (UnmarshalText t0 (fst (MarshalText (TimestampFrom i)))))
           (TimestampFrom i) = true.
Proof.
  intros i t0.
  destruct (C1_round_trip i t0 wf_Unix_example eq_refl)
    as [(_ & _ & Hj) (_ & _ & Hx)].
  split; [exact Hj | exact Hx].
Defined.

(** C2, as the code has it.  A failed [UnmarshalJSON] returns an error that
    wraps the error of [encoding/json], a failed [UnmarshalText] one that
    wraps the error of [strconv]; an object, an array or a string is such a
    failure of [UnmarshalJSON].  The receiver is not written on these paths:
    its [Valid] flag afterwards is the one it had before, so it is invalid
    afterwards exactly when it was invalid before. *)
Theorem C2_failed_decode_keeps_validity (t : Timestamp) (data : bytes) :
  (forall e, snd (UnmarshalJSON t data) = Some e ->
     (exists cause,
        e = Errorf_w "null: couldn't unmarshal JSON" cause
        /\ Unwrap e = Some cause /\ isJSONError cause)
     /\ Valid (fst (UnmarshalJSON t data)) = Valid t)
  /\ (forall e, snd (UnmarshalText t data) = Some e ->
     (exists cause,
        e = Errorf_w "null: couldn't unmarshal text" cause
        /\ Unwrap e = Some cause /\ isNumError cause)
     /\ Valid (fst (UnmarshalText t data)) = Valid t)
  /\ (forall c, firstNonSpace data = Some c ->
        c = "{"%char \/ c = "["%char \/ c = quote ->
        snd (UnmarshalJSON t data) <> None).
Proof.
  split; [| split].
  - intros e He. destruct (UnmarshalJSON_failure t data e He) as [Ht (c & -> & Hc)].
    split; [exists c; repeat split; assumption | now rewrite Ht].
  - intros e He. destruct (UnmarshalText_failure t data e He) as [Ht (c & -> & Hc)].
    split; [exists c; repeat split; assumption | now rewrite Ht].
  - intros c Hc Hshape. unfold UnmarshalJSON.
    destruct (bytes_eqb data nullBytes) eqn:En.
    + apply bytes_eqb_eq in En. subst data. cbn in Hc. injection Hc as <-.
      destruct Hshape as [H | [H | H]]; discriminate H.
    + pose proof (Unmarshal_wrong_shape data 0 c Hc Hshape) as Hw.
      destruct (json.Unmarshal_int64 data 0) as [v [e0 |]];
        [cbn; discriminate | now contradiction Hw].
Qed.

Lemma C2_failed_decode_keeps_validity_witness :
  let t := NewTimestamp time.zero false in
  Valid (fst (UnmarshalJSON t (lit "{}"))) = false
  /\ Valid (fst (UnmarshalText t (lit "{}"))) = false
  /\ snd (UnmarshalJSON t (lit "{}")) <> None.
Proof.
  intros t.
  destruct (C2_failed_decode_keeps_validity t (lit "{}")) as (HJ & HT & HS).
  split; [| split].
  - exact (proj2 (HJ _ eq_refl)).
  - exact (proj2 (HT _ eq_refl)).
  - exact (HS "{"%char eq_refl (or_introl eq_refl)).
Defined.

(** The claim C2 as worded fails: a valid receiver is still valid after a
    failed decode, of JSON and of text. *)
Lemma C2_counterexample :
  let t := TimestampFrom (time.Unix 5 0) in
  (snd (UnmarshalJSON t (lit "{}")) <> None
   /\ Valid (fst (UnmarshalJSON t (lit "{}"))) = true)
  /\ (snd (UnmarshalText t (lit "hello world")) <> None
      /\ Valid (fst (UnmarshalText t (lit "hello world"))) = true).
Proof. cbv zeta. repeat split; vm_compute; discriminate. Qed.

(** C3, as the code has it.  [UnmarshalJSON] of the literal [null], and
    [UnmarshalText] of the empty input or of the text [null], succeed and
    clear [Valid]; the [Time] field is not written and keeps the instant it
    held. *)
Theorem C3_null_input_clears_valid (t : Timestamp) :
  (snd (UnmarshalJSON t (lit "null")) = None
   /\ Valid (fst (UnmarshalJSON t (lit "null"))) = false
   /\ null.Time (fst (UnmarshalJSON t (lit "null"))) = null.Time t)
  /\ (snd (UnmarshalText t (lit "")) = None
      /\ Valid (fst (UnmarshalText t (lit ""))) = false
      /\ null.Time (fst (UnmarshalText t (lit ""))) = null.Time t)
  /\ (snd (UnmarshalText t (lit "null")) = None
      /\ Valid (fst (UnmarshalText t (lit "null"))) = false
      /\ null.Time (fst (UnmarshalText t (lit "null"))) = null.Time t).
Proof. repeat split. Qed.

(** The claim C3 as worded fails: after decoding [null] into a Timestamp
    that held an instant, the [Time] field is that instant, not the zero
    instant. *)
Lemma C3_counterexample :
  let t := TimestampFrom (time.Unix 5 0) in
  null.Time (fst (UnmarshalJSON t (lit "null"))) <> time.zero
  /\ null.Time (fst (UnmarshalText t (lit ""))) <> time.zero
  /\ null.Time (fst (UnmarshalText t (lit "null"))) <> time.zero.
Proof. cbv zeta. repeat split; vm_compute; discriminate. Qed.

(** C4.  [Scan] called with an [int64], or with any value that is neither
    [nil] nor a [time.Time], fails with the type-mismatch error, and the
    Timestamp is invalid afterwards, whether it was valid or invalid
    before.  [Scan] is the promoted method of [sql.NullTime], modelled from
    the specification. *)
Theorem C4_scan_foreign_type (t : Timestamp) (v : sql.Value) :
  v <> sql.VNil -> (forall tm, v <> sql.VTime tm) ->
  snd (Scan t v)
  = Some (ScanError "unsupported type for Timestamp"
                    (sql.typeName v) "*time.Time")
  /\ Valid (fst (Scan t v)) = false.
Proof.
  intros Hnil Htime. destruct v as [| i | f | b | bs | s | tm];
    try (split; reflexivity).
  - contradiction.
  - now contradiction (Htime tm).
Qed.

Lemma C4_scan_foreign_type_witness :
  let t := TimestampFrom (time.Unix 1356124881 0) in
  snd (Scan t (sql.VInt64 42))
  = Some (ScanError "unsupported type for Timestamp" "int64" "*time.Time")
  /\ Valid (fst (Scan t (sql.VInt64 42))) = false.
Proof.
  intros t. apply (C4_scan_foreign_type t (sql.VInt64 42)).
  - discriminate.
  - intros tm. discriminate.
Defined.

(** C5.  Null round trip.  An invalid Timestamp marshals to exactly [null]
    as JSON and to the empty sequence as text; no Timestamp marshals to the
    text [null]; [UnmarshalJSON] of [null] and [UnmarshalText] of the empty
    input and of [null] succeed and leave the receiver invalid. *)
Theorem C5_null_round_trip (t r : Timestamp) :
  Valid t = false ->
  MarshalJSON t = (lit "null", None)
  /\ MarshalText t = ([], None)
  /\ fst (MarshalText r) <> lit "null"
  /\ (snd (UnmarshalJSON r (lit "null")) = None
      /\ Valid (fst (UnmarshalJSON r (lit "null"))) = false)
  /\ (snd (UnmarshalText r (lit "")) = None
      /\ Valid (fst (UnmarshalText r (lit ""))) = false)
  /\ (snd (UnmarshalText r (lit "null")) = None
      /\ Valid (fst (UnmarshalText r (lit "null"))) = false).
Proof.
  intros Hinv. unfold MarshalJSON, MarshalText. rewrite Hinv. cbn [negb].
  split; [reflexivity |]. split; [reflexivity |]. split; [| repeat split].
  destruct (Valid r); cbn [negb fst]; [| discriminate].
  intros Heq.
  destruct (FormatInt_not_null (time.Time_Unix (null.Time r))
              (Time_Unix_range _)) as [_ Hne].
  rewrite Heq in Hne. discriminate Hne.
Qed.

Lemma C5_null_round_trip_witness :
  let t := NewTimestamp (time.Unix 1356124881 0) false in
  let r := TimestampFrom (time.Unix 1356124881 0) in
  MarshalJSON t = (lit "null", None)
  /\ MarshalText t = ([], None)
  /\ fst (MarshalText r) <> lit "null"
  /\ (snd (UnmarshalJSON r (lit "null")) = None
      /\ Valid (fst (UnmarshalJSON r (lit "null"))) = false)
  /\ (snd (UnmarshalText r (lit "")) = None
      /\ Valid (fst (UnmarshalText r (lit ""))) = false)
  /\ (snd (UnmarshalText r (lit "null")) = None
      /\ Valid (fst (UnmarshalText r (lit "null"))) = false).
Proof.
  intros t r. apply (C5_null_round_trip t r). reflexivity.
Defined.

(** C6.  Two valid Timestamps whose instants are the same instant (Go's
    [Time.Equal]) and carry different zone offsets are [Equal] and not
    [ExactEqual]; two invalid Timestamps are [Equal] and [ExactEqual]
    whatever instants they hold; a valid and an invalid Timestamp are
    neither, in either order. *)
Theorem C6_equal_and_exact_equal
        (zs : time.Zones) (t u a b : time.Time) :
  time.Time_Equal t u = true ->
  time.Zone_offset zs t <> time.Zone_offset zs u ->
  (Equal (TimestampFrom t) (TimestampFrom u) = true
   /\ ExactEqual (TimestampFrom t) (TimestampFrom u) = false)
  /\ (Equal (NewTimestamp a false) (NewTimestamp b false) = true
      /\ ExactEqual (NewTimestamp a false) (NewTimestamp b false) = true)
  /\ (Equal (NewTimestamp a true) (NewTimestamp b false) = false
      /\ ExactEqual (NewTimestamp a true) (NewTimestamp b false) = false
      /\ Equal (NewTimestamp a false) (NewTimestamp b true) = false
      /\ ExactEqual (NewTimestamp a false) (NewTimestamp b true) = false).
Proof.
  intros Hsame Hoff. split; [| repeat split]. split.
  - unfold Equal. cbn. exact Hsame.
  - unfold ExactEqual. cbn.
    destruct (time.Time_eqb t u) eqn:E; [| reflexivity].
    exfalso. apply Hoff. unfold time.Time_eqb in E.
    apply andb_true_iff in E as [E Hl]. apply andb_true_iff in E as [Hw He].
    apply Z.eqb_eq in Hw, He.
    destruct t as [tw te tl], u as [uw ue ul]. cbn in Hw, He, Hl. subst.
    assert (tl = ul) as ->.
    { destruct tl as [p |], ul as [q |]; cbn in Hl; try discriminate;
        [apply Pos.eqb_eq in Hl; now subst | reflexivity]. }
    reflexivity.
Qed.

Lemma C6_equal_and_exact_equal_witness :
  let zs : time.Zones := fun p _ => if Pos.eqb p 2 then 7200 else 0 in
  let t := time.mkTime 0 63491721681 (Some 2%positive) in
  let u := time.mkTime 0 63491721681 None in
  Equal (TimestampFrom t) (TimestampFrom u) = true
  /\ ExactEqual (TimestampFrom t) (TimestampFrom u) = false.
Proof.
  intros zs t u.
  refine (proj1 (C6_equal_and_exact_equal zs t u t u eq_refl _)).
  vm_compute. discriminate.
Defined.

(** C7.  [IsZero] is the negation of [Valid]: a valid Timestamp of the
    zero instant is not zero, the Timestamp made from a nil pointer is. *)
Theorem C7_IsZero_is_not_Valid (t : Timestamp) :
  IsZero t = negb (Valid t)
  /\ IsZero (TimestampFrom time.zero) = false
  /\ IsZero (TimestampFromPtr None) = true.
Proof. repeat split. Qed.



(** C9.  A failed decode is atomic: when [UnmarshalJSON], or
    [UnmarshalText], returns an error, the receiver's [Time] and [Valid]
    are what they were before the call. *)
Theorem C9_failed_decode_is_atomic (t : Timestamp) (data : bytes) :
  (snd (UnmarshalJSON t data) <> None ->
   null.Time (fst (UnmarshalJSON t data)) = null.Time t
   /\ Valid (fst (UnmarshalJSON t data)) = Valid t)
  /\ (snd (UnmarshalText t data) <> None ->
      null.Time (fst (UnmarshalText t data)) = null.Time t
      /\ Valid (fst (UnmarshalText t data)) = Valid t).
Proof.
  split; intros Hfail.
  - destruct (snd (UnmarshalJSON t data)) as [e |] eqn:E; [| contradiction].
    destruct (UnmarshalJSON_failure t data e E) as [-> _]. split; reflexivity.
  - destruct (snd (UnmarshalText t data)) as [e |] eqn:E; [| contradiction].
    destruct (UnmarshalText_failure t data e E) as [-> _]. split; reflexivity.
Qed.

Lemma C9_failed_decode_is_atomic_witness :
  let t := TimestampFrom (time.Unix 1356124881 0) in
  (null.Time (fst (UnmarshalJSON t (lit "[1]"))) = time.Unix 1356124881 0
   /\ Valid (fst (UnmarshalJSON t (lit "[1]"))) = true)
  /\ (null.Time (fst (UnmarshalText t (lit "[1]"))) = time.Unix 1356124881 0
      /\ Valid (fst (UnmarshalText t (lit "[1]"))) = true).
Proof.
  intros t. destruct (C9_failed_decode_is_atomic t (lit "[1]")) as [HJ HT].
  split; [apply HJ | apply HT]; vm_compute; discriminate.
Defined.

(** C10.  A valid Timestamp marshals to the same bytes as JSON and as
    text, the decimal digits of [t.Time.Unix()] (which [ParseInt] in base 10
    reads back), with no error; an invalid one marshals to [null] as JSON
    and to the empty sequence as text. *)
Theorem C10_marshal_json_and_text_agree (t : Timestamp) :
  (Valid t = true ->
   MarshalJSON t = (strconv.FormatInt (time.Time_Unix (null.Time t)) 10, None)
   /\ MarshalText t = MarshalJSON t
   /\ strconv.ParseInt (fst (MarshalJSON t)) 10 64
      = (time.Time_Unix (null.Time t), None))
  /\ (Valid t = false ->
      MarshalJSON t = (lit "null", None) /\ MarshalText t = ([], None)
      /\ MarshalJSON t <> MarshalText t).
Proof.
  unfold MarshalJSON, MarshalText. split; intros ->; cbn [negb fst].
  - split; [reflexivity |]. split; [reflexivity |].
    apply ParseInt_FormatInt; [apply Time_Unix_range | auto].
  - split; [reflexivity |]. split; [reflexivity | discriminate].
Qed.

Lemma C10_marshal_json_and_text_agree_witness :
  let t := TimestampFrom (time.Unix 1356124881 0) in
  let n := NewTimestamp (time.Unix 1356124881 0) false in
  (MarshalJSON t = (lit "1356124881", None) /\ MarshalText t = MarshalJSON t)
  /\ MarshalJSON n <> MarshalText n.
Proof.
  intros t n. split.
  - destruct (proj1 (C10_marshal_json_and_text_agree t) eq_refl)
      as (H1 & H2 & _).
    split; [exact H1 | exact H2].
  - exact (proj2 (proj2 (proj2 (C10_marshal_json_and_text_agree n) eq_refl))).
Defined.

(* ================================================================== *)
(** * Further properties of the package *)

(** ** Equality of instants *)

Lemma Location_eqb_eq a b : time.Location_eqb a b = true <-> a = b.
Proof.
  destruct a as [p |], b as [q |]; cbn; try (split; intros H; discriminate H).
  - rewrite Pos.eqb_eq. split; [intros -> | intros H; injection H]; auto.
  - split; reflexivity.
Qed.

Lemma Time_eqb_eq t u : time.Time_eqb t u = true <-> t = u.
Proof.
  unfold time.Time_eqb. rewrite !andb_true_iff, !Z.eqb_eq, Location_eqb_eq.
  destruct t as [tw te tl], u as [uw ue ul]. cbn. split.
  - intros [[-> ->] ->]. reflexivity.
  - intros H. injection H as -> -> ->. auto.
Qed.

Lemma Time_eqb_refl t : time.Time_eqb t t = true.
Proof. now apply Time_eqb_eq. Qed.

Lemma Time_Equal_refl t : time.Time_Equal t t = true.
Proof.
  unfold time.Time_Equal. destruct (negb _); rewrite !Z.eqb_refl; reflexivity.
Qed.

Lemma Time_Equal_sym t u : time.Time_Equal t u = time.Time_Equal u t.
Proof.
  unfold time.Time_Equal.
  rewrite (Z.land_comm (time.wall t) (time.wall u)).
  rewrite (Z.eqb_sym (time.ext t)), (Z.eqb_sym (time.sec t)),
    (Z.eqb_sym (time.nsec t)). reflexivity.
Qed.

(** The value [json.Unmarshal] stores into an int64 is an int64. *)
Lemma Unmarshal_int64_range data v0 v :
  is_int64 v0 -> json.Unmarshal_int64 data v0 = (v, None) -> is_int64 v.
Proof.
  intros H0. unfold json.Unmarshal_int64.
  destruct (json.checkValid data); [discriminate |].
  destruct (skipn (json.leadingSpaces data) data) as [| c rest];
    [discriminate |].
  destruct (Ascii.eqb c "["); [discriminate |].
  destruct (Ascii.eqb c "{"); [discriminate |].
  unfold json.literalStore.
  destruct (Ascii.eqb c "n"). { intros H. injection H as <-. exact H0. }
  destruct (Ascii.eqb c "t" || Ascii.eqb c "f"); [discriminate |].
  destruct (Ascii.eqb c quote); [discriminate |].
  destruct (strconv.ParseInt _ 10 64) as [n [e |]] eqn:EP; [discriminate |].
  intros H. injection H as <-. now apply ParseInt_range in EP.
Qed.

Lemma is_int64_0 : is_int64 0.
Proof.
  unfold is_int64, minInt64, maxInt64.
  change (2 ^ 63) with 9223372036854775808. lia.
Qed.

(** What a successful decode leaves in the receiver. *)
Lemma UnmarshalJSON_success t data :
  snd (UnmarshalJSON t data) = None ->
  (data = lit "null" /\ fst (UnmarshalJSON t data) = setValid t false)
  \/ (exists v, is_int64 v
        /\ fst (UnmarshalJSON t data) = NewTimestamp (time.Unix v 0) true).
Proof.
  unfold UnmarshalJSON. destruct (bytes_eqb data nullBytes) eqn:En.
  - intros _. left. apply bytes_eqb_eq in En. split; [exact En | reflexivity].
  - destruct (json.Unmarshal_int64 data 0) as [v [e |]] eqn:EU;
      [discriminate |].
    intros _. right. exists v. split; [| reflexivity].
    exact (Unmarshal_int64_range data 0 v is_int64_0 EU).
Qed.

Lemma UnmarshalText_success t text :
  snd (UnmarshalText t text) = None ->
  ((text = [] \/ text = lit "null")
   /\ fst (UnmarshalText t text) = setValid t false)
  \/ (exists v, is_int64 v
        /\ fst (UnmarshalText t text) = NewTimestamp (time.Unix v 0) true).
Proof.
  unfold UnmarshalText.
  destruct (bytes_eqb text (lit "") || bytes_eqb text (lit "null")) eqn:En.
  - intros _. left. apply orb_true_iff in En.
    rewrite !bytes_eqb_eq in En. split; [exact En | reflexivity].
  - destruct (strconv.ParseInt text 0 64) as [v [e |]] eqn:EP;
      [discriminate |].
    intros _. right. exists v. split; [| reflexivity].
    now apply ParseInt_range in EP.
Qed.

(** ** The database boundary *)

(** X1.  What [Value] returns can always be scanned back, into any
    receiver, and the receiver is then [ExactEqual] to the Timestamp the
    value came from. *)
Theorem X1_Value_then_Scan (t r : Timestamp) :
  snd (Value t) = None
  /\ snd (Scan r (fst (Value t))) = None
  /\ ExactEqual (fst (Scan r (fst (Value t)))) t = true.
Proof.
  destruct t as [[tm [|]]]; cbn; repeat split. unfold ExactEqual. cbn.
  apply Time_eqb_refl.
Qed.

(** X2.  [Scan] accepts [nil] and a [time.Time] whatever the receiver held,
    and [Value] then returns the value scanned; after [Scan(nil)] the
    receiver is the null Timestamp of the zero instant. *)
Theorem X2_Scan_then_Value (r : Timestamp) (tm : time.Time) :
  (snd (Scan r sql.VNil) = None
   /\ Value (fst (Scan r sql.VNil)) = (sql.VNil, None)
   /\ fst (Scan r sql.VNil) = NewTimestamp time.zero false)
  /\ (snd (Scan r (sql.VTime tm)) = None
      /\ Value (fst (Scan r (sql.VTime tm))) = (sql.VTime tm, None)
      /\ fst (Scan r (sql.VTime tm)) = TimestampFrom tm).
Proof. repeat split. Qed.

(** X3.  Going through [Ptr] loses nothing that can be observed: the
    Timestamp that [TimestampFromPtr] makes from the pointer [t.Ptr()] is
    [ExactEqual] to [t], is null exactly when [t] is, and has the same
    [ValueOrZero].  A null Timestamp goes through the nil pointer, a valid
    one through a pointer to a copy of its instant. *)
Theorem X3_Ptr_TimestampFromPtr (t : Timestamp) :
  ExactEqual (TimestampFromPtr (Ptr t)) t = true
  /\ IsZero (TimestampFromPtr (Ptr t)) = IsZero t
  /\ ValueOrZero (TimestampFromPtr (Ptr t)) = ValueOrZero t.
Proof.
  destruct t as [[tm [|]]]; cbn; repeat split.
  unfold ExactEqual. cbn. apply Time_eqb_refl.
Qed.

(** ** The two equalities *)

(** X4.  [ExactEqual] is stronger than [Equal]: two Timestamps that are
    [ExactEqual] are [Equal]. *)
Theorem X4_ExactEqual_implies_Equal (t u : Timestamp) :
  ExactEqual t u = true -> Equal t u = true.
Proof.
  unfold ExactEqual, Equal. intros H. apply andb_true_iff in H as [Hv Ht].
  rewrite Hv. cbn [andb]. destruct (Valid t); cbn [negb orb] in *;
    [| reflexivity].
  apply Time_eqb_eq in Ht. rewrite Ht. apply Time_Equal_refl.
Qed.

Lemma X4_ExactEqual_implies_Equal_witness :
  Equal (TimestampFrom (time.Unix 1356124881 0))
        (TimestampFrom (time.Unix 1356124881 0)) = true.
Proof.
  apply (X4_ExactEqual_implies_Equal
           (TimestampFrom (time.Unix 1356124881 0))
           (TimestampFrom (time.Unix 1356124881 0))).
  reflexivity.
Defined.

(** X5.  [Equal] and [ExactEqual] are reflexive and symmetric, and
    [ExactEqual] is transitive. *)
Theorem X5_equalities_are_reflexive_symmetric (t u w : Timestamp) :
  Equal t t = true /\ ExactEqual t t = true
  /\ Equal t u = Equal u t /\ ExactEqual t u = ExactEqual u t
  /\ (ExactEqual t u = true -> ExactEqual u w = true ->
      ExactEqual t w = true).
Proof.
  unfold Equal, ExactEqual.
  destruct t as [[tt [|]]], u as [[tu [|]]], w as [[tw [|]]]; cbn;
    rewrite ?Time_Equal_refl, ?Time_eqb_refl;
    repeat split; try reflexivity; try discriminate;
    try apply Time_Equal_sym.
  all: try (destruct (time.Time_eqb tt tu) eqn:E1,
              (time.Time_eqb tu tt) eqn:E2; try reflexivity;
            apply Time_eqb_eq in E1 || apply Time_eqb_eq in E2; subst;
            rewrite Time_eqb_refl in *; discriminate).
  intros H1 H2. apply Time_eqb_eq in H1, H2. subst. apply Time_eqb_refl.
Qed.

Lemma X5_equalities_are_reflexive_symmetric_witness :
  ExactEqual (NewTimestamp time.zero false)
             (NewTimestamp (time.Unix 9 0) false) = true.
Proof.
  refine (proj2 (proj2 (proj2 (proj2
            (X5_equalities_are_reflexive_symmetric
               (NewTimestamp time.zero false)
               (NewTimestamp (time.Unix 5 0) false)
               (NewTimestamp (time.Unix 9 0) false))))) _ _);
    reflexivity.
Defined.

(** X6.  No accessor and no marshaler tells two [ExactEqual] Timestamps
    apart: the [Time] field of a null Timestamp is never read. *)
Theorem X6_ExactEqual_is_observational (t u : Timestamp) :
  ExactEqual t u = true ->
  Value t = Value u /\ Ptr t = Ptr u /\ ValueOrZero t = ValueOrZero u
  /\ IsZero t = IsZero u
  /\ MarshalJSON t = MarshalJSON u /\ MarshalText t = MarshalText u.
Proof.
  unfold ExactEqual. destruct t as [[tt [|]]], u as [[tu [|]]]; cbn;
    intros H; try discriminate H; [| repeat split].
  apply Time_eqb_eq in H. subst. repeat split.
Qed.

Lemma X6_ExactEqual_is_observational_witness :
  let t := NewTimestamp time.zero false in
  let u := NewTimestamp (time.Unix 1356124881 0) false in
  Value t = Value u /\ ValueOrZero t = ValueOrZero u
  /\ MarshalJSON t = MarshalJSON u.
Proof.
  intros t u.
  destruct (X6_ExactEqual_is_observational t u eq_refl)
    as (H1 & _ & H3 & _ & H5 & _).
  split; [exact H1 | split; [exact H3 | exact H5]].
Defined.

(** X7.  Only the instant reaches the wire: two [Equal] Timestamps that do
    not both carry a monotonic clock reading marshal to the same bytes, as
    JSON and as text, whatever their locations. *)
Theorem X7_Equal_same_wire (t u : Timestamp) :
  noCommonMonotonic (null.Time t) (null.Time u) ->
  Equal t u = true ->
  MarshalJSON t = MarshalJSON u /\ MarshalText t = MarshalText u.
Proof.
  unfold noCommonMonotonic, Equal, MarshalJSON, MarshalText.
  intros Hm H. apply andb_true_iff in H as [Hv Ht].
  apply Bool.eqb_prop in Hv. rewrite <- Hv.
  destruct (Valid t); cbn [negb orb] in *; [| split; reflexivity].
  unfold time.Time_Equal in Ht. rewrite Hm in Ht. cbn [Z.eqb negb] in Ht.
  apply andb_true_iff in Ht as [Hs _]. apply Z.eqb_eq in Hs.
  unfold time.Time_Unix, time.unixSec. rewrite Hs. split; reflexivity.
Qed.

Lemma X7_Equal_same_wire_witness :
  let t := TimestampFrom (time.mkTime 0 63491721681 (Some 2%positive)) in
  let u := TimestampFrom (time.mkTime 0 63491721681 None) in
  MarshalJSON t = MarshalJSON u /\ MarshalText t = MarshalText u.
Proof.
  intros t u. apply (X7_Equal_same_wire t u); reflexivity.
Defined.

(** ** The wire formats *)

(** X8.  [MarshalJSON] never fails and what it returns is valid JSON, for
    every Timestamp: [checkValid], which [json.Marshal] runs over the
    output of a Marshaler, accepts it. *)
Theorem X8_MarshalJSON_is_valid_JSON (t : Timestamp) :
  snd (MarshalJSON t) = None
  /\ json.checkValid (fst (MarshalJSON t)) = None.
Proof.
  unfold MarshalJSON. destruct (Valid t); cbn [negb fst snd].
  - split; [reflexivity |]. apply checkValid_FormatInt, Time_Unix_range.
  - split; reflexivity.
Qed.

(** X9.  Marshalling truncates to whole seconds and drops the location.
    For every valid Timestamp, whatever the nanoseconds, the monotonic
    reading and the location of its instant, decoding what [MarshalJSON]
    (or [MarshalText]) wrote gives, in any receiver, the valid Timestamp of
    [time.Unix(t.Time.Unix(), 0)]: the same Unix seconds, no nanoseconds,
    in [time.Local]. *)
Theorem X9_round_trip_truncates (t r : Timestamp) :
  Valid t = true ->
  let u := time.Time_Unix (null.Time t) in
  UnmarshalJSON r (fst (MarshalJSON t))
  = (NewTimestamp (time.Unix u 0) true, None)
  /\ UnmarshalText r (fst (MarshalText t))
     = (NewTimestamp (time.Unix u 0) true, None)
  /\ time.Time_Unix (time.Unix u 0) = u
  /\ time.nsec (time.Unix u 0) = 0
  /\ time.loc (time.Unix u 0) = time.Local.
Proof.
  intros Hv u. unfold MarshalJSON, MarshalText. rewrite Hv. cbn [negb fst].
  rewrite UnmarshalJSON_FormatInt by apply Time_Unix_range.
  rewrite UnmarshalText_FormatInt by apply Time_Unix_range.
  repeat split. apply Unix_Time_Unix, Time_Unix_range.
Qed.

Lemma X9_round_trip_truncates_witness :
  let t := TimestampFrom (time.mkTime 999999999 63491721681 None) in
  let r := NewTimestamp time.zero false in
  UnmarshalJSON r (fst (MarshalJSON t))
  = (NewTimestamp (time.Unix 1356124881 0) true, None)
  /\ UnmarshalText r (fst (MarshalText t))
     = (NewTimestamp (time.Unix 1356124881 0) true, None).
Proof.
  intros t r.
  destruct (X9_round_trip_truncates t r eq_refl) as (H1 & H2 & _).
  split; [exact H1 | exact H2].
Defined.

(** X10.  A decoded Timestamp is a fixed point of the round trip: when
    [UnmarshalJSON] (or [UnmarshalText]) succeeds, marshalling the receiver
    and decoding the bytes again, into any receiver, succeeds and gives a
    Timestamp [ExactEqual] to the first. *)
Theorem X10_decoded_is_canonical (t r : Timestamp) (data : bytes) :
  (snd (UnmarshalJSON t data) = None ->
   let t' := fst (UnmarshalJSON t data) in
   snd (UnmarshalJSON r (fst (MarshalJSON t'))) = None
   /\ ExactEqual (fst (UnmarshalJSON r (fst (MarshalJSON t')))) t' = true)
  /\ (snd (UnmarshalText t data) = None ->
      let t' := fst (UnmarshalText t data) in
      snd (UnmarshalText r (fst (MarshalText t'))) = None
      /\ ExactEqual (fst (UnmarshalText r (fst (MarshalText t')))) t' = true).
Proof.
  split; intros Hok t'; subst t'.
  - destruct (UnmarshalJSON_success t data Hok) as [[_ ->] | (v & Hv & ->)].
    + split; reflexivity.
    + unfold MarshalJSON. cbn [Valid NewTimestamp NullTime sql.Valid negb fst
        null.Time sql.Time].
      rewrite Unix_Time_Unix by exact Hv.
      rewrite UnmarshalJSON_FormatInt by exact Hv. split; [reflexivity |].
      unfold ExactEqual. cbn. apply Time_eqb_refl.
  - destruct (UnmarshalText_success t data Hok) as [[_ ->] | (v & Hv & ->)].
    + split; reflexivity.
    + unfold MarshalText. cbn [Valid NewTimestamp NullTime sql.Valid negb fst
        null.Time sql.Time].
      rewrite Unix_Time_Unix by exact Hv.
      rewrite UnmarshalText_FormatInt by exact Hv. split; [reflexivity |].
      unfold ExactEqual. cbn. apply Time_eqb_refl.
Qed.

Lemma X10_decoded_is_canonical_witness :
  let t := NewTimestamp time.zero false in
  let a := fst (UnmarshalJSON t (lit " 12 ")) in
  let b := fst (UnmarshalText t (lit "+0x0C")) in
  ExactEqual (fst (UnmarshalJSON t (fst (MarshalJSON a)))) a = true
  /\ ExactEqual (fst (UnmarshalText t (fst (MarshalText b)))) b = true.
Proof.
  intros t a b.
  destruct (X10_decoded_is_canonical t t (lit " 12 ")) as [HJ _].
  destruct (X10_decoded_is_canonical t t (lit "+0x0C")) as [_ HT].
  split; [exact (proj2 (HJ eq_refl)) | exact (proj2 (HT eq_refl))].
Defined.

(** X11.  The outcome of a decode does not depend on what the receiver
    held: two receivers given the same input fail with the same error or
    both succeed, and after success they are [ExactEqual]. *)
Theorem X11_decode_ignores_receiver (t1 t2 : Timestamp) (data : bytes) :
  (snd (UnmarshalJSON t1 data) = snd (UnmarshalJSON t2 data)
   /\ (snd (UnmarshalJSON t1 data) = None ->
       ExactEqual (fst (UnmarshalJSON t1 data))
                  (fst (UnmarshalJSON t2 data)) = true))
  /\ (snd (UnmarshalText t1 data) = snd (UnmarshalText t2 data)
      /\ (snd (UnmarshalText t1 data) = None ->
          ExactEqual (fst (UnmarshalText t1 data))
                     (fst (UnmarshalText t2 data)) = true)).
Proof.
  unfold UnmarshalJSON, UnmarshalText. split.
  - destruct (bytes_eqb data nullBytes); [split; reflexivity |].
    destruct (json.Unmarshal_int64 data 0) as [v [e |]]; cbn [fst snd].
    + split; [reflexivity | discriminate].
    + split; [reflexivity |]. intros _. unfold ExactEqual. cbn.
      apply Time_eqb_refl.
  - destruct (bytes_eqb data (lit "") || bytes_eqb data (lit "null"));
      [split; reflexivity |].
    destruct (strconv.ParseInt data 0 64) as [v [e |]]; cbn [fst snd].
    + split; [reflexivity | discriminate].
    + split; [reflexivity |]. intros _. unfold ExactEqual. cbn.
      apply Time_eqb_refl.
Qed.

Lemma X11_decode_ignores_receiver_witness :
  let t1 := NewTimestamp time.zero false in
  let t2 := TimestampFrom (time.Unix 1356124881 0) in
  ExactEqual (fst (UnmarshalJSON t1 (lit "null")))
             (fst (UnmarshalJSON t2 (lit "null"))) = true
  /\ ExactEqual (fst (UnmarshalText t1 (lit "42")))
                (fst (UnmarshalText t2 (lit "42"))) = true.
Proof.
  intros t1 t2.
  destruct (X11_decode_ignores_receiver t1 t2 (lit "null")) as [[_ HJ] _].
  destruct (X11_decode_ignores_receiver t1 t2 (lit "42")) as [_ [_ HT]].
  split; [exact (HJ eq_refl) | exact (HT eq_refl)].
Defined.

(** X12.  A decoder writes [Time] and [Valid] together or not at all: after
    a successful decode the receiver either has [Valid] cleared and its
    [Time] untouched, or is valid at an instant of whole seconds in
    [time.Local] with no monotonic reading. *)
Theorem X12_decode_success_states (t : Timestamp) (data : bytes) :
  (snd (UnmarshalJSON t data) = None ->
   let t' := fst (UnmarshalJSON t data) in
   (Valid t' = false /\ null.Time t' = null.Time t)
   \/ (Valid t' = true /\ time.wall (null.Time t') = 0
       /\ time.nsec (null.Time t') = 0
       /\ time.loc (null.Time t') = time.Local))
  /\ (snd (UnmarshalText t data) = None ->
      let t' := fst (UnmarshalText t data) in
      (Valid t' = false /\ null.Time t' = null.Time t)
      \/ (Valid t' = true /\ time.wall (null.Time t') = 0
          /\ time.nsec (null.Time t') = 0
          /\ time.loc (null.Time t') = time.Local)).
Proof.
  split; intros Hok t'; subst t'.
  - destruct (UnmarshalJSON_success t data Hok) as [[_ ->] | (v & _ & ->)];
      [left | right]; repeat split.
  - destruct (UnmarshalText_success t data Hok) as [[_ ->] | (v & _ & ->)];
      [left | right]; repeat split.
Qed.

Lemma X12_decode_success_states_witness :
  let t := TimestampFrom (time.mkTime 999999999 63491721681 None) in
  (Valid (fst (UnmarshalJSON t (lit "null"))) = false
   /\ null.Time (fst (UnmarshalJSON t (lit "null"))) = null.Time t)
  \/ (Valid (fst (UnmarshalJSON t (lit "null"))) = true
      /\ time.wall (null.Time (fst (UnmarshalJSON t (lit "null")))) = 0
      /\ time.nsec (null.Time (fst (UnmarshalJSON t (lit "null")))) = 0
      /\ time.loc (null.Time (fst (UnmarshalJSON t (lit "null"))))
         = time.Local).
Proof.
  intros t.
  exact (proj1 (X12_decode_success_states t (lit "null")) eq_refl).
Defined.

(** X13.  [UnmarshalJSON] compares its input with [null] byte for byte.  A
    JSON [null] that is not exactly those four bytes (with a space before
    or after, say) goes to [json.Unmarshal], which stores nothing into the
    int64 and reports no error: the receiver becomes valid, at the Unix
    epoch. *)
Theorem X13_null_with_spaces_is_epoch (t : Timestamp) (data : bytes) :
  data <> lit "null" ->
  json.checkValid data = None ->
  firstNonSpace data = Some "n"%char ->
  UnmarshalJSON t data = (NewTimestamp (time.Unix 0 0) true, None)
  /\ time.Time_Unix (time.Unix 0 0) = 0.
Proof.
  intros Hne Hok Hn. split; [| reflexivity].
  unfold UnmarshalJSON, nullBytes.
  rewrite (bytes_eqb_neq data (lit "null")) by exact Hne.
  unfold json.Unmarshal_int64. rewrite Hok. unfold firstNonSpace in Hn.
  destruct (skipn (json.leadingSpaces data) data) as [| c rest];
    [discriminate Hn |].
  cbn in Hn. injection Hn as ->. reflexivity.
Qed.

Lemma X13_null_with_spaces_is_epoch_witness :
  UnmarshalJSON (NewTimestamp time.zero false) (lit " null")
  = (NewTimestamp (time.Unix 0 0) true, None).
Proof.
  refine (proj1 (X13_null_with_spaces_is_epoch
                   (NewTimestamp time.zero false) (lit " null") _ _ _)).
  - discriminate.
  - vm_compute. reflexivity.
  - reflexivity.
Defined.

(** ** What the JSON decoder accepts, the text decoder accepts *)

(** Once the scanner has recorded an error, [checkValid] fails. *)
Lemma checkLoop_after_error rest : forall s,
  json.err s <> None -> json.step s = json.stateError ->
  snd (json.checkLoop rest s) <> None.
Proof.
  induction rest as [| c rest IH]; intros [st et ps er nb] Her Hst;
    cbn in Her, Hst; subst.
  - cbn [json.checkLoop]. unfold json.eof. cbn [json.err].
    destruct er as [e |]; [cbn; discriminate | contradiction].
  - cbn [json.checkLoop]. unfold json.doStep. cbn [json.step json.isScanError
      json.err snd]. exact Her.
Qed.

Lemma nb_1to9 c : between "1" c "9" = true -> between "0" c "9" = true.
Proof.
  unfold between. change (b2z "0") with 48. change (b2z "1") with 49.
  change (b2z "9") with 57. rewrite !andb_true_iff, !Z.leb_le. lia.
Qed.

(** Closes [json.isNumberByte c = true] from the test on [c] that the
    scanner has just passed. *)
Ltac number_byte c :=
  repeat match goal with
    | H : (_ || _)%bool = true |- _ =>
        apply orb_true_iff in H; destruct H
    end;
  first
    [ match goal with
      | H : Ascii.eqb c _ = true |- _ =>
          apply Ascii.eqb_eq in H; subst c; reflexivity
      end
    | match goal with
      | H : between "0" c "9" = true |- _ =>
          unfold json.isNumberByte; rewrite H; reflexivity
      end
    | match goal with
      | H : between "1" c "9" = true |- _ =>
          unfold json.isNumberByte; rewrite (nb_1to9 c H); reflexivity
      end ].

(** One byte that is not a space, met inside a top-level number: the
    scanner records an error, or the byte is one of a number and the
    scanner stays inside the number. *)
Lemma number_step s c s2 op :
  inNumber (json.step s) = true -> json.parseState s = [] ->
  json.err s = None -> json.endTop s = false ->
  json.isSpace c = false ->
  json.doStep s c = (s2, op) ->
  (json.err s2 <> None /\ json.step s2 = json.stateError)
  \/ (json.isNumberByte c = true /\ op = json.scanContinue
      /\ inNumber (json.step s2) = true /\ json.parseState s2 = []
      /\ json.err s2 = None /\ json.endTop s2 = false).
Proof.
  intros Hn Hps Her Het Hsp H. destruct s as [st et ps er nb].
  cbn in Hn, Hps, Her, Het. subst.
  destruct st; try discriminate Hn; scanner_unfold H;
    rewrite ?Hsp in H; cbn [negb] in H;
    repeat match type of H with
      | context [if ?b then _ else _] => destruct b eqn:?
      end;
    injection H as <- <-;
    first [ left; split; [discriminate | reflexivity]
          | right; split; [number_byte c | repeat split] ].
Qed.

(** A valid top-level number without spaces consists of bytes of numbers. *)
Lemma number_bytes rest : forall s,
  inNumber (json.step s) = true -> json.parseState s = [] ->
  json.err s = None -> json.endTop s = false ->
  noSpaces rest = true ->
  snd (json.checkLoop rest s) = None ->
  forallb json.isNumberByte rest = true.
Proof.
  induction rest as [| c rest IH]; intros s Hn Hps Her Het Hns Hok;
    [reflexivity |].
  unfold noSpaces in Hns. cbn [forallb] in Hns.
  apply andb_true_iff in Hns as [Hc Hrest]. apply negb_true_iff in Hc.
  cbn [json.checkLoop] in Hok.
  set (s1 := json.mkScanner (json.step s) (json.endTop s)
               (json.parseState s) (json.err s) (json.nbytes s + 1)) in *.
  destruct (json.doStep s1 c) as [s2 op] eqn:Hstep.
  destruct (number_step s1 c s2 op Hn Hps Her Het Hc Hstep)
    as [[He Hst] | (Hb & -> & Hn2 & Hps2 & Her2 & Het2)].
  - exfalso. destruct (json.isScanError op).
    + cbn in Hok. contradiction.
    + now apply (checkLoop_after_error rest s2 He Hst).
  - cbn [json.isScanError] in Hok. cbn [forallb]. rewrite Hb. cbn [andb].
    now apply (IH s2).
Qed.

Lemma rescanNumber_all rest :
  forallb json.isNumberByte rest = true ->
  json.rescanNumber rest = List.length rest.
Proof.
  induction rest as [| c r IH]; [reflexivity |]. cbn [forallb].
  intros H. apply andb_true_iff in H as [Hc Hr].
  cbn [json.rescanNumber List.length]. rewrite Hc. now rewrite IH.
Qed.

Lemma isDecimal_cases c :
  isDecimal c = true ->
  c = "0"%char \/ c = "1"%char \/ c = "2"%char \/ c = "3"%char
  \/ c = "4"%char \/ c = "5"%char \/ c = "6"%char \/ c = "7"%char
  \/ c = "8"%char \/ c = "9"%char.
Proof.
  intros H. apply isDecimal_b2z in H.
  assert (b2z c = 48 \/ b2z c = 49 \/ b2z c = 50 \/ b2z c = 51
          \/ b2z c = 52 \/ b2z c = 53 \/ b2z c = 54 \/ b2z c = 55
          \/ b2z c = 56 \/ b2z c = 57) as Hc by lia.
  repeat (destruct Hc as [Hc | Hc];
          [repeat (first [left; apply b2z_inj; exact Hc | right]) |]).
  repeat right. apply b2z_inj. exact Hc.
Qed.

Lemma isSpace_decimal c : isDecimal c = true -> json.isSpace c = false.
Proof.
  intros H. apply isDecimal_b2z in H. unfold json.isSpace.
  replace (b2z c <=? 32) with false by (symmetry; apply Z.leb_gt; lia).
  reflexivity.
Qed.

(** After a leading zero a digit ends the number and is an error at top
    level: JSON has no leading zeros. *)
Lemma no_digit_after_zero c rest nb :
  isDecimal c = true ->
  snd (json.checkLoop (c :: rest)
         (json.mkScanner json.state0 false [] None nb)) <> None.
Proof.
  intros Hc. cbn [json.checkLoop].
  destruct (json.doStep _ c) as [s2 op] eqn:Hstep.
  assert (json.err s2 <> None /\ json.step s2 = json.stateError) as [He Hst].
  { pose proof (isSpace_decimal c Hc) as Hsp.
    apply isDecimal_cases in Hc.
    repeat (destruct Hc as [-> | Hc];
            [scanner_unfold Hstep; rewrite Hsp in Hstep;
             cbn in Hstep; injection Hstep as <- <-;
             split; [discriminate | reflexivity] |]).
    subst c. scanner_unfold Hstep. rewrite Hsp in Hstep.
    cbn in Hstep. injection Hstep as <- <-.
    split; [discriminate | reflexivity]. }
  destruct (json.isScanError op).
  - cbn. exact He.
  - now apply checkLoop_after_error.
Qed.

(** The first byte of valid input without leading space opens a value. *)
Lemma first_byte c rest :
  json.checkValid (c :: rest) = None -> json.isSpace c = false ->
  Ascii.eqb c "{" = true \/ Ascii.eqb c "[" = true
  \/ Ascii.eqb c quote = true \/ Ascii.eqb c "t" = true
  \/ Ascii.eqb c "f" = true \/ Ascii.eqb c "n" = true
  \/ ((Ascii.eqb c "-" = true \/ Ascii.eqb c "0" = true
       \/ between "1" c "9" = true)
      /\ exists s, inNumber (json.step s) = true /\ json.parseState s = []
                   /\ json.err s = None /\ json.endTop s = false
                   /\ (Ascii.eqb c "0" = true -> json.step s = json.state0)
                   /\ (Ascii.eqb c "-" = true -> json.step s = json.stateNeg)
                   /\ snd (json.checkLoop rest s) = None).
Proof.
  unfold json.checkValid. cbn [json.checkLoop]. intros H Hsp.
  destruct (json.doStep _ c) as [s2 op] eqn:Hstep.
  scanner_unfold Hstep. rewrite Hsp in Hstep.
  destruct (Ascii.eqb c "{"); [auto |].
  destruct (Ascii.eqb c "["); [auto |].
  destruct (Ascii.eqb c quote); [auto 10 |].
  destruct (Ascii.eqb c "-") eqn:Em.
  { injection Hstep as <- <-. cbn [json.isScanError] in H.
    do 6 right. split; [auto |].
    match type of H with
    | snd (json.checkLoop rest ?s) = None => exists s
    end.
    repeat split; try exact H.
    intros E. apply Ascii.eqb_eq in E. apply Ascii.eqb_eq in Em.
    rewrite E in Em. discriminate Em. }
  destruct (Ascii.eqb c "0") eqn:E0.
  { injection Hstep as <- <-. cbn [json.isScanError] in H.
    do 6 right. split; [auto |].
    match type of H with
    | snd (json.checkLoop rest ?s) = None => exists s
    end.
    repeat split; try exact H. discriminate. }
  destruct (Ascii.eqb c "t"); [auto 10 |].
  destruct (Ascii.eqb c "f"); [auto 10 |].
  destruct (Ascii.eqb c "n"); [auto 10 |].
  destruct (between "1" c "9") eqn:E19.
  { injection Hstep as <- <-. cbn [json.isScanError] in H.
    do 6 right. split; [auto |].
    match type of H with
    | snd (json.checkLoop rest ?s) = None => exists s
    end.
    repeat split; try exact H; discriminate. }
  injection Hstep as <- <-. cbn in H. discriminate H.
Qed.

(** After a complete top-level value, a byte that is not a space is an
    error. *)
Lemma nothing_after_value c rest s :
  json.step s = json.stateEndValue -> json.parseState s = [] ->
  json.isSpace c = false ->
  snd (json.checkLoop (c :: rest) s) <> None.
Proof.
  intros Hst Hps Hsp. destruct s as [st et ps er nb]. cbn in Hst, Hps. subst.
  cbn [json.checkLoop].
  destruct (json.doStep _ c) as [s2 op] eqn:Hstep.
  scanner_unfold Hstep. rewrite Hsp in Hstep. cbn [negb] in Hstep.
  injection Hstep as <- <-. cbn [json.isScanError].
  apply checkLoop_after_error; [discriminate | reflexivity].
Qed.

(** One letter of a literal: the scanner goes on only on the letter it
    expects. *)
Lemma letter_step (want : byte) (next : json.Step) (ctx : string)
      c rest s :
  (forall s1, json.step s1 = json.step s ->
              json.doStep s1 c = json.f_letter want next ctx s1 c) ->
  snd (json.checkLoop (c :: rest) s) = None ->
  c = want
  /\ snd (json.checkLoop rest
            (json.mkScanner next (json.endTop s) (json.parseState s)
               (json.err s) (json.nbytes s + 1))) = None.
Proof.
  intros Hdo H. cbn [json.checkLoop] in H.
  rewrite Hdo in H by reflexivity. unfold json.f_letter in H.
  destruct (Ascii.eqb_spec c want) as [-> | Hne].
  - split; [reflexivity | exact H].
  - cbn in H. discriminate H.
Qed.

(** Valid input without spaces that starts with [n] is [null]. *)
Lemma starts_with_n rest :
  json.checkValid ("n"%char :: rest) = None -> noSpaces rest = true ->
  "n"%char :: rest = lit "null".
Proof.
  unfold json.checkValid. intros H Hns.
  erewrite checkLoop_step in H by (vm_compute; reflexivity).
  destruct rest as [| c1 rest]; [vm_compute in H; discriminate H |].
  apply (letter_step "u"%char json.stateNu "in literal null (expecting 'u')")
    in H as [-> H];
    [| intros s1 Hs1; unfold json.doStep; rewrite Hs1; reflexivity].
  destruct rest as [| c2 rest]; [vm_compute in H; discriminate H |].
  apply (letter_step "l"%char json.stateNul "in literal null (expecting 'l')")
    in H as [-> H];
    [| intros s1 Hs1; unfold json.doStep; rewrite Hs1; reflexivity].
  destruct rest as [| c3 rest]; [vm_compute in H; discriminate H |].
  apply (letter_step "l"%char json.stateEndValue "in literal null (expecting 'l')")
    in H as [-> H];
    [| intros s1 Hs1; unfold json.doStep; rewrite Hs1; reflexivity].
  destruct rest as [| c4 rest]; [reflexivity |].
  exfalso. revert H. apply nothing_after_value; [reflexivity | reflexivity |].
  unfold noSpaces in Hns. cbn [forallb] in Hns.
  do 3 (apply andb_true_iff in Hns as [_ Hns]).
  apply andb_true_iff in Hns as [Hc _]. now apply negb_true_iff in Hc.
Qed.

(** The digit loop of [ParseUint] with and without underscores allowed:
    what is read where an underscore is an error is read where it is
    skipped, and no underscore was seen. *)
Lemma parseLoop_base0 b C M s : forall n us r,
  strconv.parseLoop false b C M s n us = inl r ->
  strconv.parseLoop true b C M s n us = inl r /\ snd r = us.
Proof.
  induction s as [| ch s IH]; intros n us r.
  - cbn. intros H. injection H as <-. split; reflexivity.
  - cbn [strconv.parseLoop]. cbv zeta. rewrite andb_false_r, andb_true_r.
    destruct (b2z ch =? 95) eqn:E95.
    + apply Z.eqb_eq in E95. rewrite E95. cbn. discriminate.
    + repeat match goal with
        | |- context [if ?c then _ else _] => destruct c
        end;
        try discriminate; apply IH.
Qed.

(** Base 10 reads decimal digits only. *)
Lemma parseLoop_decimal C M s : forall n us r,
  strconv.parseLoop false 10 C M s n us = inl r ->
  forallb isDecimal s = true.
Proof.
  induction s as [| ch s IH]; intros n us r; [reflexivity |].
  cbn [strconv.parseLoop forallb]. cbv zeta. rewrite andb_false_r.
  destruct ((48 <=? b2z ch) && (b2z ch <=? 57)) eqn:Ed.
  - assert (isDecimal ch = true) as ->.
    { apply isDecimal_b2z. apply andb_true_iff in Ed.
      rewrite !Z.leb_le in Ed. exact Ed. }
    cbn [andb].
    repeat match goal with
      | |- context [if ?c then _ else _] => destruct c
      end;
      try discriminate; apply IH.
  - destruct ((97 <=? strconv.lower (b2z ch))
              && (strconv.lower (b2z ch) <=? 122)) eqn:El;
      [| discriminate].
    apply andb_true_iff in El as [El _]. apply Z.leb_le in El.
    replace (strconv.lower (b2z ch) - 97 + 10 >=? 10) with true;
      [discriminate |].
    symmetry. rewrite Z.geb_leb. apply Z.leb_le. lia.
Qed.

(** A range error of the digit loop comes with the largest value. *)
Lemma parseLoop_range b0 b C M s : forall n us v,
  strconv.parseLoop b0 b C M s n us = inr (v, ErrRange) -> v = M.
Proof.
  induction s as [| ch s IH]; intros n us v; [discriminate |].
  cbn [strconv.parseLoop]. cbv zeta.
  repeat match goal with
    | |- context [if ?c then _ else _] => destruct c
    end;
    try discriminate; try apply IH;
    intros H; injection H as <-; reflexivity.
Qed.

(** A number that [ParseUint] reads in base 10 and that has no leading
    zero is read the same with the base left to the prefix. *)
Lemma ParseUint_10_to_0 s un :
  strconv.ParseUint s 10 64 = (un, None) ->
  s = ["0"%char] \/ (exists c tl, s = c :: tl /\ c <> "0"%char) ->
  strconv.ParseUint s 0 64 = (un, None).
Proof.
  intros H Hshape. destruct Hshape as [-> | (c & tl & -> & Hc)].
  { vm_compute in H. injection H as <-. reflexivity. }
  revert H. unfold strconv.ParseUint.
  cbn [Z.leb Z.compare andb Pos.compare Pos.compare_cont Z.eqb negb orb
       Z.ltb Z.gtb strconv.IntSize].
  rewrite (proj2 (Ascii.eqb_neq c "0") Hc).
  destruct (strconv.parseLoop false 10 _ _ (c :: tl) 0 false)
    as [[n us] | [v k]] eqn:EL; [| discriminate].
  apply parseLoop_base0 in EL as [EL Hus]. cbn [snd] in Hus. subst us.
  rewrite EL. cbn [andb]. exact (fun H => H).
Qed.

Lemma ParseUint_range s b un e :
  strconv.ParseUint s b 64 = (un, Some e) ->
  strconv.isErrRange e = true -> un = maxUint64.
Proof.
  unfold strconv.ParseUint. destruct s as [| c0 tl].
  { intros H. injection H as _ <-. discriminate. }
  match goal with
  | |- context [match ?p with Some _ => _ | None => _ end] =>
      destruct p as [[b' digs] |]
  end.
  2: { intros H. injection H as _ <-. discriminate. }
  cbn [Z.eqb negb andb orb Z.ltb Z.gtb Z.compare Pos.compare
       Pos.compare_cont strconv.IntSize].
  rewrite maxVal64.
  destruct (strconv.parseLoop _ _ _ _ _ _ _) as [[n us] | [v k]] eqn:EL.
  - destruct (us && _); [| discriminate].
    intros H. injection H as _ <-. discriminate.
  - intros H. injection H as <- <-. destruct k; try discriminate.
    intros _. now apply parseLoop_range in EL.
Qed.

Lemma signed_max fn s0 neg v :
  strconv.signed fn s0 maxUint64 neg 64 <> (v, None).
Proof. destruct neg; vm_compute; discriminate. Qed.

Lemma ParseUint10_decimal s un :
  strconv.ParseUint s 10 64 = (un, None) ->
  s <> [] /\ forallb isDecimal s = true.
Proof.
  unfold strconv.ParseUint. destruct s as [| c tl]; [discriminate |].
  cbn [Z.leb Z.compare andb Pos.compare Pos.compare_cont Z.eqb negb orb
       Z.ltb Z.gtb strconv.IntSize].
  destruct (strconv.parseLoop false 10 _ _ (c :: tl) 0 false)
    as [[n us] | [v k]] eqn:EL; [| discriminate].
  intros _. split; [discriminate |]. now apply parseLoop_decimal in EL.
Qed.

(** The digits of a valid JSON number, after the sign if there is one: a
    single zero, or digits that do not start with a zero. *)
Lemma json_number_shape pre s :
  pre = [] \/ pre = ["-"%char] ->
  json.checkValid (pre ++ s) = None ->
  forallb isDecimal s = true -> s <> [] ->
  s = ["0"%char] \/ (exists c tl, s = c :: tl /\ c <> "0"%char).
Proof.
  intros Hpre Hok Hdec Hne. destruct s as [| c tl]; [contradiction |].
  destruct (Ascii.eqb_spec c "0") as [-> | Hc]; [| right; eauto].
  left. destruct tl as [| c1 tl']; [reflexivity |]. exfalso.
  cbn [forallb] in Hdec. apply andb_true_iff in Hdec as [_ Hdec].
  apply andb_true_iff in Hdec as [Hc1 _].
  unfold json.checkValid in Hok. destruct Hpre as [-> | ->]; cbn [app] in Hok.
  - erewrite checkLoop_step in Hok by (vm_compute; reflexivity).
    revert Hok. now apply no_digit_after_zero.
  - erewrite checkLoop_step in Hok by (vm_compute; reflexivity).
    erewrite checkLoop_step in Hok by (vm_compute; reflexivity).
    revert Hok. now apply no_digit_after_zero.
Qed.

(** On valid JSON, [ParseInt] with the base left to the prefix reads what
    it reads in base 10. *)
Lemma ParseInt_10_to_0 data v :
  json.checkValid data = None ->
  strconv.ParseInt data 10 64 = (v, None) ->
  strconv.ParseInt data 0 64 = (v, None).
Proof.
  intros Hok H. destruct data as [| c rest]; [discriminate H |].
  unfold strconv.ParseInt in *.
  destruct (Ascii.eqb_spec c "+") as [-> | Hplus].
  { vm_compute in Hok. discriminate Hok. }
  destruct (Ascii.eqb_spec c "-") as [-> | Hminus]; cbv beta iota zeta in *.
  - destruct (strconv.ParseUint rest 10 64) as [un [e |]] eqn:EU.
    + exfalso. destruct (strconv.isErrRange e) eqn:Er; cbn [negb] in H.
      * rewrite (ParseUint_range _ _ _ _ EU Er) in H.
        exact (signed_max _ _ _ _ H).
      * discriminate H.
    + destruct (ParseUint10_decimal rest un EU) as [Hne Hdec].
      rewrite (ParseUint_10_to_0 rest un EU
                 (json_number_shape ["-"%char] rest (or_intror eq_refl)
                    Hok Hdec Hne)).
      exact H.
  - destruct (strconv.ParseUint (c :: rest) 10 64) as [un [e |]] eqn:EU.
    + exfalso. destruct (strconv.isErrRange e) eqn:Er; cbn [negb] in H.
      * rewrite (ParseUint_range _ _ _ _ EU Er) in H.
        exact (signed_max _ _ _ _ H).
      * discriminate H.
    + destruct (ParseUint10_decimal (c :: rest) un EU) as [Hne Hdec].
      rewrite (ParseUint_10_to_0 (c :: rest) un EU
                 (json_number_shape [] (c :: rest) (or_introl eq_refl)
                    Hok Hdec Hne)).
      exact H.
Qed.

(** What [json.Unmarshal] reads into an int64 from input without spaces,
    [ParseInt(s, 0, 64)] reads from the same input. *)
Lemma Unmarshal_to_ParseInt data v0 v :
  noSpaces data = true -> data <> lit "null" ->
  json.Unmarshal_int64 data v0 = (v, None) ->
  strconv.ParseInt data 0 64 = (v, None).
Proof.
  intros Hns Hnull. unfold json.Unmarshal_int64.
  destruct (json.checkValid data) eqn:Hok; [discriminate |].
  destruct data as [| c rest]; [discriminate |].
  pose proof Hns as Hns'. unfold noSpaces in Hns'. cbn [forallb] in Hns'.
  apply andb_true_iff in Hns' as [Hc Hrest]. apply negb_true_iff in Hc.
  cbn [json.leadingSpaces]. rewrite Hc. cbn [skipn].
  destruct (first_byte c rest Hok Hc)
    as [E | [E | [E | [E | [E | [E | [Hnum (s & Hn & Hps & Her & Het & _ & _ & Hs)]]]]]]].
  - rewrite E. destruct (Ascii.eqb c "["); discriminate.
  - rewrite E. discriminate.
  - apply Ascii.eqb_eq in E. subst c. cbn. discriminate.
  - apply Ascii.eqb_eq in E. subst c. cbn. discriminate.
  - apply Ascii.eqb_eq in E. subst c. cbn. discriminate.
  - apply Ascii.eqb_eq in E. subst c. exfalso. apply Hnull.
    now apply starts_with_n.
  - pose proof (number_bytes rest s Hn Hps Her Het Hrest Hs) as Hbytes.
    assert (json.rescanLiteral c rest = List.length rest) as ->.
    { transitivity (json.rescanNumber rest);
        [| exact (rescanNumber_all rest Hbytes)].
      unfold json.rescanLiteral.
      destruct Hnum as [E | [E | E]].
      - apply Ascii.eqb_eq in E. subst c. reflexivity.
      - apply Ascii.eqb_eq in E. subst c. reflexivity.
      - apply nb_1to9 in E. rewrite E.
        destruct (Ascii.eqb c quote) eqn:Eq; [| reflexivity].
        apply Ascii.eqb_eq in Eq. subst c. discriminate E. }
    rewrite firstn_all.
    assert (Ascii.eqb c "[" = false /\ Ascii.eqb c "{" = false
            /\ Ascii.eqb c "n" = false /\ Ascii.eqb c "t" = false
            /\ Ascii.eqb c "f" = false /\ Ascii.eqb c quote = false)
      as (-> & -> & E1 & E2 & E3 & E4).
    { destruct Hnum as [E | [E | E]];
        try (apply Ascii.eqb_eq in E; subst c; repeat split; reflexivity).
      apply nb_1to9, isDecimal_cases in E.
      repeat (destruct E as [-> | E]; [repeat split; reflexivity |]).
      subst c. repeat split; reflexivity. }
    unfold json.literalStore. rewrite E1, E2, E3, E4. cbn [orb].
    destruct (strconv.ParseInt (c :: rest) 10 64) as [n [e |]] eqn:EP;
      [discriminate |].
    intros H. injection H as <-. now apply ParseInt_10_to_0.
Qed.

(** X14.  On input without spaces the text decoder accepts whatever the
    JSON decoder accepts, and leaves the receiver in the same state:
    [null], and every JSON integer that fits an int64. *)
Theorem X14_JSON_accepted_is_text_accepted (t : Timestamp) (data : bytes) :
  noSpaces data = true ->
  snd (UnmarshalJSON t data) = None ->
  UnmarshalText t data = UnmarshalJSON t data.
Proof.
  intros Hns. unfold UnmarshalJSON, UnmarshalText, nullBytes.
  destruct (bytes_eqb data (lit "null")) eqn:En.
  - intros _. rewrite orb_true_r. reflexivity.
  - destruct (json.Unmarshal_int64 data 0) as [v [e |]] eqn:EU;
      [discriminate |].
    intros _.
    assert (data <> lit "null") as Hnull.
    { intros ->. discriminate En. }
    rewrite (Unmarshal_to_ParseInt data 0 v Hns Hnull EU).
    destruct data as [| c rest]; [vm_compute in EU; discriminate EU |].
    reflexivity.
Qed.

Lemma X14_JSON_accepted_is_text_accepted_witness :
  UnmarshalText (NewTimestamp time.zero false) (lit "-1356124881")
  = UnmarshalJSON (NewTimestamp time.zero false) (lit "-1356124881").
Proof.
  apply (X14_JSON_accepted_is_text_accepted
           (NewTimestamp time.zero false) (lit "-1356124881"));
    vm_compute; reflexivity.
Defined.

(** ** The text decoder does not trim *)

Lemma isSpace_b2z c :
  json.isSpace c = true ->
  b2z c = 32 \/ b2z c = 9 \/ b2z c = 13 \/ b2z c = 10.
Proof.
  unfold json.isSpace. intros H. apply andb_true_iff in H as [_ H].
  repeat (apply orb_true_iff in H as [H | H]);
    try (apply Z.eqb_eq in H; auto).
  apply Ascii.eqb_eq in H. subst c. auto.
Qed.

(** A space is no digit in any base. *)
Lemma parseLoop_space_byte b0 b C M ch rest n us :
  json.isSpace ch = true ->
  strconv.parseLoop b0 b C M (ch :: rest) n us = inr (0, ErrSyntax).
Proof.
  intros H. apply isSpace_b2z in H. cbn [strconv.parseLoop]. cbv zeta.
  destruct H as [-> | [-> | [-> | ->]]]; reflexivity.
Qed.

Lemma parseLoop_space b0 b C M s : forall n us,
  existsb json.isSpace s = true ->
  exists v k, strconv.parseLoop b0 b C M s n us = inr (v, k).
Proof.
  induction s as [| ch s IH]; intros n us; [discriminate |].
  cbn [existsb]. destruct (json.isSpace ch) eqn:Hc.
  - intros _. rewrite parseLoop_space_byte by exact Hc. eauto.
  - cbn [orb]. intros Hs. cbn [strconv.parseLoop]. cbv zeta.
    repeat match goal with
      | |- context [if ?c then _ else _] => destruct c
      end;
      first [now apply IH | eauto].
Qed.

Lemma prefix_letter_not_space c k :
  (strconv.lower (b2z c) =? k) = true -> k = 98 \/ k = 111 \/ k = 120 ->
  json.isSpace c = false.
Proof.
  intros E Hk. destruct (json.isSpace c) eqn:Hs; [| reflexivity].
  apply isSpace_b2z in Hs. apply Z.eqb_eq in E.
  destruct Hs as [H | [H | [H | H]]]; rewrite H in E; cbn in E; lia.
Qed.

Lemma ParseUint_space s b :
  existsb json.isSpace s = true ->
  exists v e, strconv.ParseUint s b 64 = (v, Some e).
Proof.
  intros Hs. unfold strconv.ParseUint. destruct s as [| c0 tl]; [eauto |].
  assert (Hloop : forall b0 b' digs,
             existsb json.isSpace digs = true ->
             exists v e,
               (if negb (64 =? 0) && ((64 <? 0) || (64 >? 64))
                then (0, Some (NumError "ParseUint" (c0 :: tl) (ErrBitSize 64)))
                else
                  match strconv.parseLoop b0 b'
                          (maxUint64 / b' + 1)
                          (uint64 (Z.shiftl 1
                             (if 64 =? 0 then strconv.IntSize else 64) - 1))
                          digs 0 false with
                  | inr (v, e) => (v, Some (NumError "ParseUint" (c0 :: tl) e))
                  | inl (n, underscores) =>
                      if underscores && negb (strconv.underscoreOK (c0 :: tl))
                      then (0, Some (NumError "ParseUint" (c0 :: tl) ErrSyntax))
                      else (n, None)
                  end) = (v, Some e)).
  { intros b0 b' digs Hd. cbn [Z.eqb negb andb orb Z.ltb Z.gtb Z.compare
      Pos.compare Pos.compare_cont].
    destruct (parseLoop_space b0 b' (maxUint64 / b' + 1)
                (uint64 (Z.shiftl 1 (strconv.IntSize - 1 + 1) - 1))
                digs 0 false Hd) as (v & k & E).
    change (strconv.IntSize - 1 + 1) with 64 in E.
    change (if false then strconv.IntSize else 64) with 64.
    rewrite E. eauto. }
  destruct ((2 <=? b) && (b <=? 36)); [now apply Hloop |].
  destruct (b =? 0); [| eauto].
  destruct (Ascii.eqb_spec c0 "0") as [-> | Hc0]; [| now apply Hloop].
  cbn [existsb] in Hs. change (json.isSpace "0"%char) with false in Hs.
  cbn [orb] in Hs.
  destruct tl as [| c1 [| c2 r]]; try (now apply Hloop).
  cbn [existsb] in Hs.
  destruct (strconv.lower (b2z c1) =? 98) eqn:E1.
  { rewrite (prefix_letter_not_space c1 98 E1) in Hs by auto.
    now apply Hloop. }
  destruct (strconv.lower (b2z c1) =? 111) eqn:E2.
  { rewrite (prefix_letter_not_space c1 111 E2) in Hs by auto.
    now apply Hloop. }
  destruct (strconv.lower (b2z c1) =? 120) eqn:E3.
  { rewrite (prefix_letter_not_space c1 120 E3) in Hs by auto.
    now apply Hloop. }
  now apply Hloop.
Qed.

Lemma ParseInt_space s b :
  existsb json.isSpace s = true -> snd (strconv.ParseInt s b 64) <> None.
Proof.
  intros Hs. unfold strconv.ParseInt. destruct s as [| c0 tl];
    [cbn; discriminate |].
  assert (Htail : forall s neg,
             existsb json.isSpace s = true ->
             snd (let '(un, err) := strconv.ParseUint s b 64 in
                  match err with
                  | Some e =>
                      if negb (strconv.isErrRange e)
                      then (0, Some (strconv.renamed "ParseInt" (c0 :: tl) e))
                      else strconv.signed "ParseInt" (c0 :: tl) un neg 64
                  | None => strconv.signed "ParseInt" (c0 :: tl) un neg 64
                  end) <> None).
  { intros s neg Hsp. destruct (ParseUint_space s b Hsp) as (v & e & E).
    rewrite E. destruct (strconv.isErrRange e) eqn:Er; cbn [negb].
    - rewrite (ParseUint_range _ _ _ _ E Er).
      destruct (strconv.signed _ _ _ _ _) as [v' [e' |]] eqn:Es;
        [cbn; discriminate |].
      exfalso. exact (signed_max _ _ _ _ Es).
    - cbn. discriminate. }
  cbn [existsb] in Hs.
  destruct (Ascii.eqb_spec c0 "+") as [-> | Hp].
  { apply Htail. exact Hs. }
  destruct (Ascii.eqb_spec c0 "-") as [-> | Hm].
  { apply Htail. exact Hs. }
  apply Htail. exact Hs.
Qed.

(** X15.  [UnmarshalText] does not trim: text with a space, tab or line
    break anywhere in it is rejected, and the receiver is left as it
    was. *)
Theorem X15_UnmarshalText_rejects_spaces (t : Timestamp) (text : bytes) :
  existsb json.isSpace text = true ->
  snd (UnmarshalText t text) <> None /\ fst (UnmarshalText t text) = t.
Proof.
  intros Hs. unfold UnmarshalText.
  assert (bytes_eqb text (lit "") = false) as ->.
  { apply bytes_eqb_neq. intros ->. discriminate Hs. }
  assert (bytes_eqb text (lit "null") = false) as ->.
  { apply bytes_eqb_neq. intros ->. discriminate Hs. }
  cbn [orb]. pose proof (ParseInt_space text 0 Hs) as Hp.
  destruct (strconv.ParseInt text 0 64) as [v [e |]];
    [split; [cbn; discriminate | reflexivity] | now contradiction Hp].
Qed.

Lemma X15_UnmarshalText_rejects_spaces_witness :
  let t := TimestampFrom (time.Unix 1356124881 0) in
  snd (UnmarshalText t (lit "12 ")) <> None
  /\ fst (UnmarshalText t (lit "12 ")) = t.
Proof.
  intros t. apply (X15_UnmarshalText_rejects_spaces t (lit "12 ")).
  reflexivity.
Defined.

(** ** Setting and reading *)

(** X16.  The three ways to make a Timestamp valid agree: after
    [SetValid(v)], and after [Scan] of the [time.Time] [v], the receiver is
    [TimestampFrom(v)] whatever it held; setting twice keeps the last
    instant. *)
Theorem X16_SetValid_Scan_From_agree (t : Timestamp) (v w : time.Time) :
  SetValid t v = TimestampFrom v
  /\ fst (Scan t (sql.VTime v)) = SetValid t v
  /\ SetValid (SetValid t v) w = SetValid t w.
Proof. repeat split. Qed.

